(** * The Theia camera model: [SharedExtrinsics] and [Camera]

    A shallow embedding of [src/theia/sfm/camera/shared_extrinsics.h],
    [camera.h] and [camera.cc], and the properties of the camera
    specification checked against it.

    Numbers.  The code is read over two models of a C++ [double].  For
    what is stored where, which object a write reaches and the algebra of
    the frames, a [double] is idealised as a real number or the marker
    [None], which stands for any non-finite value (an infinity or a NaN):
    dividing by zero produces it, every operation propagates it, and
    rounding is not modelled.  For whether a [double] is zero, an infinity
    or a NaN, which exact arithmetic cannot tell, the code is read over
    IEEE 754 binary64 ([Binary64] below).  An [int] is an integer; the
    code only stores and compares them.

    Memory.  A [std::shared_ptr<SharedExtrinsics>] is a nullable handle into
    a heap of [SharedExtrinsics] objects, so that two cameras holding the
    same handle see each other's writes. *)

From Stdlib Require Import Reals Lra List ZArith Lia Bool Floats.
Import ListNotations.

(* ================================================================== *)
(** ** Doubles *)

Module Double.

Definition double : Type := option R.

Definition lift2 (f : R -> R -> R) (x y : double) : double :=
  match x, y with
  | Some a, Some b => Some (f a b)
  | _, _ => None
  end.

Definition add : double -> double -> double := lift2 Rplus.
Definition sub : double -> double -> double := lift2 Rminus.
Definition mul : double -> double -> double := lift2 Rmult.

(** [x / y]: a zero divisor gives an infinity or a NaN. *)
Definition div (x y : double) : double :=
  match x, y with
  | Some a, Some b => if Req_dec_T b 0 then None else Some (a / b)%R
  | _, _ => None
  end.

Definition neg (x : double) : double :=
  match x with Some a => Some (- a)%R | None => None end.

(** [std::sqrt]: NaN on a negative argument. *)
Definition sqrt (x : double) : double :=
  match x with
  | Some a => if Rlt_dec a 0 then None else Some (R_sqrt.sqrt a)
  | None => None
  end.

(** [x == y] where [y] is finite: false on a non-finite [x]. *)
Definition eqb (x y : double) : bool :=
  match x, y with
  | Some a, Some b => if Req_dec_T a b then true else false
  | _, _ => false
  end.

Definition is_zero (x : double) : bool := eqb x (Some 0%R).

End Double.

Import Double.

Declare Scope double_scope.
Delimit Scope double_scope with dbl.
Bind Scope double_scope with double.
Infix "+" := Double.add : double_scope.
Infix "-" := Double.sub : double_scope.
Infix "*" := Double.mul : double_scope.
Infix "/" := Double.div : double_scope.
Notation "- x" := (Double.neg x) : double_scope.
Notation "x == y" := (Double.eqb x y) (at level 70, no associativity) : double_scope.
Notation "0.0" := (Some 0%R : double) : double_scope.
Notation "1.0" := (Some 1%R : double) : double_scope.

(** Case analysis on the zero tests of the divisions of a goal between
    finite doubles. *)
Ltac dcase :=
  match goal with
  | |- context [Req_dec_T ?x ?y] =>
      destruct (Req_dec_T x y);
      [try (exfalso; lra) | try (exfalso; lra)]; simpl
  end.

(* ================================================================== *)
(** ** Eigen vectors and matrices *)

Record Vector2d := V2 { x2 : double; y2 : double }.
Record Vector3d := V3 { x3 : double; y3 : double; z3 : double }.
Record Vector4d := V4 { x4 : double; y4 : double; z4 : double; w4 : double }.

(** [Matrix3d]: [mIJ] is the coefficient at row [I], column [J]. *)
Record Matrix3d := M3 {
  m00 : double; m01 : double; m02 : double;
  m10 : double; m11 : double; m12 : double;
  m20 : double; m21 : double; m22 : double }.

Record Matrix3x4d := M3x4 {
  p00 : double; p01 : double; p02 : double; p03 : double;
  p10 : double; p11 : double; p12 : double; p13 : double;
  p20 : double; p21 : double; p22 : double; p23 : double }.

Module Eigen.

Local Open Scope double_scope.

Definition Identity : Matrix3d :=
  M3 1.0 0.0 0.0
     0.0 1.0 0.0
     0.0 0.0 1.0.

(** [a * b] on 3x3 matrices. *)
Definition mmul (a b : Matrix3d) : Matrix3d :=
  M3 (m00 a * m00 b + m01 a * m10 b + m02 a * m20 b)
     (m00 a * m01 b + m01 a * m11 b + m02 a * m21 b)
     (m00 a * m02 b + m01 a * m12 b + m02 a * m22 b)
     (m10 a * m00 b + m11 a * m10 b + m12 a * m20 b)
     (m10 a * m01 b + m11 a * m11 b + m12 a * m21 b)
     (m10 a * m02 b + m11 a * m12 b + m12 a * m22 b)
     (m20 a * m00 b + m21 a * m10 b + m22 a * m20 b)
     (m20 a * m01 b + m21 a * m11 b + m22 a * m21 b)
     (m20 a * m02 b + m21 a * m12 b + m22 a * m22 b).

(** [a * v] for a 3-vector. *)
Definition mvmul (a : Matrix3d) (v : Vector3d) : Vector3d :=
  V3 (m00 a * x3 v + m01 a * y3 v + m02 a * z3 v)
     (m10 a * x3 v + m11 a * y3 v + m12 a * z3 v)
     (m20 a * x3 v + m21 a * y3 v + m22 a * z3 v).

Definition transpose (a : Matrix3d) : Matrix3d :=
  M3 (m00 a) (m10 a) (m20 a)
     (m01 a) (m11 a) (m21 a)
     (m02 a) (m12 a) (m22 a).

(** The determinant as [inverse()] computes it: the first column of
    cofactors against the first column of the matrix. *)
Definition determinant (a : Matrix3d) : double :=
  (m11 a * m22 a - m12 a * m21 a) * m00 a
  + (m21 a * m02 a - m22 a * m01 a) * m10 a
  + (m01 a * m12 a - m02 a * m11 a) * m20 a.

(** [a.inverse()] for a fixed-size 3x3 matrix: the transposed cofactors
    times [1 / det], with no check of the determinant. *)
Definition inverse (a : Matrix3d) : Matrix3d :=
  let invdet := 1.0 / determinant a in
  M3 ((m11 a * m22 a - m12 a * m21 a) * invdet)
     ((m21 a * m02 a - m22 a * m01 a) * invdet)
     ((m01 a * m12 a - m02 a * m11 a) * invdet)
     ((m12 a * m20 a - m10 a * m22 a) * invdet)
     ((m22 a * m00 a - m20 a * m02 a) * invdet)
     ((m02 a * m10 a - m00 a * m12 a) * invdet)
     ((m10 a * m21 a - m11 a * m20 a) * invdet)
     ((m20 a * m01 a - m21 a * m00 a) * invdet)
     ((m00 a * m11 a - m01 a * m10 a) * invdet).

(** [a.data()]: Eigen stores a [Matrix3d] column by column. *)
Definition data (a : Matrix3d) : list double :=
  [m00 a; m10 a; m20 a; m01 a; m11 a; m21 a; m02 a; m12 a; m22 a].

Definition vsub (u v : Vector3d) : Vector3d :=
  V3 (x3 u - x3 v) (y3 u - y3 v) (z3 u - z3 v).

(** [v / s]. *)
Definition vdiv (v : Vector3d) (s : double) : Vector3d :=
  V3 (x3 v / s) (y3 v / s) (z3 v / s).

Definition squaredNorm (v : Vector3d) : double :=
  x3 v * x3 v + y3 v * y3 v + z3 v * z3 v.

(** [v.norm()]: the Euclidean norm. *)
Definition norm (v : Vector3d) : double := Double.sqrt (squaredNorm v).

(** [p.homogeneous()] on a 2-vector. *)
Definition homogeneous (p : Vector2d) : Vector3d := V3 (x2 p) (y2 p) 1.0.

(** [Eigen::AngleAxisd]: an angle and an axis. *)
Record AngleAxisd := AngleAxis { angle : double; axis : Vector3d }.

End Eigen.

(* ================================================================== *)
(** ** Fixed-size arrays addressed by index *)

Section Arrays.
Context {A : Type}.

(** [a[i] = v].  The code only uses the constant indices of its enums,
    which are in range; out of range nothing is written here. *)
Fixpoint write (a : list A) (i : nat) (v : A) : list A :=
  match a, i with
  | [], _ => []
  | _ :: t, O => v :: t
  | x :: t, S j => x :: write t j v
  end.
End Arrays.

(** [a[i]] on an array of doubles. *)
Definition read (a : list double) (i : nat) : double := nth i a None.

(** [Map<const Vector3d>(a + off)]: the three doubles from [off] on. *)
Definition read3 (a : list double) (off : nat) : Vector3d :=
  V3 (read a off) (read a (off + 1)) (read a (off + 2)).

(** [Map<Vector3d>(a + off) = v]. *)
Definition write3 (a : list double) (off : nat) (v : Vector3d) : list double :=
  write (write (write a off (x3 v)) (off + 1) (y3 v)) (off + 2) (z3 v).

(** Equality of two arrays obtained by writes, entry by entry; [lem]
    gives the entries of an array after a write. *)
Ltac write_ext_with lem :=
  apply nth_error_ext; intros ?n; unfold write3;
  cbn [x3 y3 z3]; rewrite ?lem;
  repeat match goal with
         | |- context [Nat.eqb ?a ?b] => destruct (Nat.eqb_spec a b); try lia
         end;
  repeat match goal with
         | |- context [nth_error ?l ?k] => destruct (nth_error l k)
         end;
  try reflexivity.

(* ================================================================== *)
(** ** What a call can do besides returning *)

Inductive Outcome (A : Type) : Type :=
| Ret (a : A)            (** the call returns *)
| FatalCheck             (** a glog check fails: the process aborts *)
| NullDereference.       (** a null [shared_ptr] is dereferenced *)

Arguments Ret {A} a.
Arguments FatalCheck {A}.
Arguments NullDereference {A}.

Definition bind {A B} (m : Outcome A) (k : A -> Outcome B) : Outcome B :=
  match m with
  | Ret a => k a
  | FatalCheck => FatalCheck
  | NullDereference => NullDereference
  end.

Notation "x <- m ;; k" := (bind m (fun x => k))
  (at level 61, m at next level, right associativity).

(** [DCHECK(cond)]: glog's debug checks abort on a false condition when
    they are compiled in, and are no-ops under [NDEBUG].  [dcheck_is_on]
    says which build this is. *)
Definition DCHECK (dcheck_is_on : bool) (cond : bool) : Outcome unit :=
  if dcheck_is_on && negb cond then FatalCheck else Ret tt.

(** *** Statements in sequence

    [Outcome] says nothing of the state of a call that does not return.
    A member function with checks in it is a sequence of statements run
    on a state [S] (the object, or the object and the heap): it gives the
    outcome and the state the statements have reached, which is the state
    at the abort when a check fails. *)

Definition Run (S A : Type) : Type := S -> Outcome A * S.

(** [return a;] *)
Definition ret {S A : Type} (a : A) : Run S A := fun s => (Ret a, s).

(** [m; k]: [k] runs on the state [m] leaves, when [m] returns. *)
Definition seq {S A B : Type} (m : Run S A) (k : Run S B) : Run S B :=
  fun s =>
    match m s with
    | (Ret _, s') => k s'
    | (FatalCheck, s') => (FatalCheck, s')
    | (NullDereference, s') => (NullDereference, s')
    end.

Notation "m >> k" := (seq m k) (at level 61, right associativity).

(** A statement that only writes: the state becomes [f] of what it was. *)
Definition step {S : Type} (f : S -> S) : Run S unit :=
  fun s => (Ret tt, f s).

(** A [DCHECK] as a statement: it writes nothing. *)
Definition check {S : Type} (dcheck_is_on cond : bool) : Run S unit :=
  fun s => (DCHECK dcheck_is_on cond, s).

(** Statements that read the state they start from. *)
Definition reading {S A : Type} (k : S -> Run S A) : Run S A :=
  fun s => k s s.

(** What the caller sees of a run: the value and the state of a call that
    returned, and nothing of the state otherwise. *)
Definition outcome {S A : Type} (r : Outcome A * S) : Outcome (A * S) :=
  match r with
  | (Ret a, s) => Ret (a, s)
  | (FatalCheck, _) => FatalCheck
  | (NullDereference, _) => NullDereference
  end.

(* ================================================================== *)
(** ** shared_extrinsics.h *)

Module SharedExtrinsics.

(** [enum ExternalParametersIndex] *)
Definition POSITION : nat := 0.
Definition ORIENTATION : nat := 3.
Definition kExtrinsicsSize : nat := 6.

(** [double parameters[kExtrinsicsSize]] *)
Record t := Build { parameters : list double }.

Definition wf (s : t) : Prop := length (parameters s) = kExtrinsicsSize.

(** Modelled from the spec: the constructor [SharedExtrinsics()] is
    declared in the header and defined nowhere under src/; the spec has a
    default-constructed block all zeros (identity orientation, origin
    position). *)
Definition ctor : t := Build (repeat (Some 0%R) kExtrinsicsSize).

Definition extrinsics (s : t) : list double := parameters s.

End SharedExtrinsics.

(** [std::shared_ptr<SharedExtrinsics>]: null, or the address of an object
    of the heap. *)
Definition shared_ptr : Type := option nat.

Definition Heap : Type := list SharedExtrinsics.t.

(** [std::make_shared<SharedExtrinsics>()]: a new object at an address no
    pointer holds yet. *)
Definition make_shared (h : Heap) : shared_ptr * Heap :=
  (Some (length h), h ++ [SharedExtrinsics.ctor]).

(** [*p] *)
Definition deref (h : Heap) (p : shared_ptr) : Outcome SharedExtrinsics.t :=
  match p with
  | None => NullDereference
  | Some l =>
      match nth_error h l with
      | Some s => Ret s
      | None => NullDereference
      end
  end.

(** The pointers that address an object of the heap. *)
Definition valid (h : Heap) (p : shared_ptr) : Prop :=
  exists l s, p = Some l /\ nth_error h l = Some s /\ SharedExtrinsics.wf s.

(** [h[l] = s]: the object at address [l] replaced. *)
Definition store (h : Heap) (l : nat) (s : SharedExtrinsics.t) : Heap :=
  write h l s.

(* ================================================================== *)
(** ** The numeric routines the camera calls

    ceres and Eigen are libraries outside the repository; the routines of
    [projection_matrix_utils.h] and [radial_distortion.h] belong to it and
    are not under src/.  The camera is embedded over all of them. *)

Record Collaborators := {
  (** [ceres::RotationMatrixToAngleAxis] *)
  RotationMatrixToAngleAxis : Matrix3d -> Vector3d;
  (** [ceres::AngleAxisToRotationMatrix] *)
  AngleAxisToRotationMatrix : Vector3d -> Matrix3d;
  (** [v.normalized()] on a [Vector3d]: the quotient of [v] by its norm
      where the norm is not zero; what it returns for a vector of norm
      zero differs between Eigen releases. *)
  Vector3d_normalized : Vector3d -> Vector3d;
  (** [Eigen::AngleAxisd(const Matrix3d&)] *)
  AngleAxisd_of_matrix : Matrix3d -> Eigen.AngleAxisd;
  (** [Eigen::AngleAxisd(Eigen::Quaterniond(m).inverse() * aa)] *)
  AngleAxisd_of_inverse_times : Matrix3d -> Eigen.AngleAxisd -> Eigen.AngleAxisd;
  (** [DecomposeProjectionMatrix(P, &K, &R, &position)]: the calibration
      matrix, the rotation and the position, in this order. *)
  DecomposeProjectionMatrix : Matrix3x4d -> Matrix3d * Matrix3d * Vector3d;
  (** [CalibrationMatrixToIntrinsics(K, &focal_length, &skew,
      &aspect_ratio, &principal_point_x, &principal_point_y)]: the five
      values it writes, in the order of its arguments. *)
  CalibrationMatrixToIntrinsics :
    Matrix3d -> double * double * double * double * double;
  (** [RadialUndistortPoint(point, k1, k2, &undistorted_point)] *)
  RadialUndistortPoint : Vector2d -> double -> double -> Vector2d
}.

(* ================================================================== *)
(** ** camera.h, camera.cc *)

Module Camera.

Local Open Scope double_scope.

(** [enum InternalParametersIndex] *)
Definition FOCAL_LENGTH : nat := 0.
Definition ASPECT_RATIO : nat := 1.
Definition SKEW : nat := 2.
Definition PRINCIPAL_POINT_X : nat := 3.
Definition PRINCIPAL_POINT_Y : nat := 4.
Definition RADIAL_DISTORTION_1 : nat := 5.
Definition RADIAL_DISTORTION_2 : nat := 6.

Definition kIntrinsicsSize : nat := 7.

(** The data members.  camera.cc calls the rotation member
    [shared_to_camera_rotation] and its accessors
    [Set/GetSharedToCameraTransform]; the header declares them as
    [shared_to_local_rotation] and [Set/GetSharedToLocalTransform].  They
    are one member here, under the header's names. *)
Record t := Build {
  camera_parameters_ : list double;      (* double [kIntrinsicsSize] *)
  shared_extrinsics : shared_ptr;
  shared_to_local_rotation : Matrix3d;
  image_size_ : list Z                    (* int [2] *)
}.

(** The storage of a camera holds arrays of the declared sizes, whatever
    their contents. *)
Definition wf (c : t) : Prop :=
  length (camera_parameters_ c) = kIntrinsicsSize /\
  length (image_size_ c) = 2%nat.

(** *** Raw views *)

Definition intrinsics (c : t) : list double := camera_parameters_ c.

(** A write through [mutable_intrinsics()]: [mutable_intrinsics()[i] = v]. *)
Definition mutable_intrinsics_set (c : t) (i : nat) (v : double) : t :=
  Build (write (camera_parameters_ c) i v) (shared_extrinsics c)
        (shared_to_local_rotation c) (image_size_ c).

(** [extrinsics()]: [*shared_extrinsics]. *)
Definition extrinsics (c : t) (h : Heap) : Outcome SharedExtrinsics.t :=
  deref h (shared_extrinsics c).

(** A write through [mutable_extrinsics().mutable_extrinsics()]: the block
    of the referenced object becomes [f] of what it was. *)
Definition mutable_extrinsics_update (c : t) (h : Heap)
    (f : list double -> list double) : Outcome Heap :=
  match shared_extrinsics c with
  | None => NullDereference
  | Some l =>
      match nth_error h l with
      | Some s =>
          Ret (store h l (SharedExtrinsics.Build (f (SharedExtrinsics.parameters s))))
      | None => NullDereference
      end
  end.

Definition SetSharedExtrinsics (c : t) (s : shared_ptr) : t :=
  Build (camera_parameters_ c) s (shared_to_local_rotation c) (image_size_ c).

Definition GetSharedToLocalTransform (c : t) : Matrix3d :=
  shared_to_local_rotation c.

Definition SetSharedToLocalTransform (c : t) (m : Matrix3d) : t :=
  Build (camera_parameters_ c) (shared_extrinsics c) m (image_size_ c).

(** *** Intrinsics accessors *)

Definition SetFocalLength (c : t) (focal_length : double) : t :=
  mutable_intrinsics_set c FOCAL_LENGTH focal_length.
Definition FocalLength (c : t) : double := read (intrinsics c) FOCAL_LENGTH.

Definition SetAspectRatio (c : t) (aspect_ratio : double) : t :=
  mutable_intrinsics_set c ASPECT_RATIO aspect_ratio.
Definition AspectRatio (c : t) : double := read (intrinsics c) ASPECT_RATIO.

Definition SetSkew (c : t) (skew : double) : t :=
  mutable_intrinsics_set c SKEW skew.
Definition Skew (c : t) : double := read (intrinsics c) SKEW.

Definition SetPrincipalPoint (c : t) (ppx ppy : double) : t :=
  mutable_intrinsics_set
    (mutable_intrinsics_set c PRINCIPAL_POINT_X ppx) PRINCIPAL_POINT_Y ppy.
Definition PrincipalPointX (c : t) : double :=
  read (intrinsics c) PRINCIPAL_POINT_X.
Definition PrincipalPointY (c : t) : double :=
  read (intrinsics c) PRINCIPAL_POINT_Y.

Definition SetRadialDistortion (c : t) (k1 k2 : double) : t :=
  mutable_intrinsics_set
    (mutable_intrinsics_set c RADIAL_DISTORTION_1 k1) RADIAL_DISTORTION_2 k2.
Definition RadialDistortion1 (c : t) : double :=
  read (intrinsics c) RADIAL_DISTORTION_1.
Definition RadialDistortion2 (c : t) : double :=
  read (intrinsics c) RADIAL_DISTORTION_2.

(** [image_size_[i] = v] *)
Definition image_size_set (c : t) (i : nat) (v : Z) : t :=
  Build (camera_parameters_ c) (shared_extrinsics c)
        (shared_to_local_rotation c) (write (image_size_ c) i v).

Definition SetImageSize (c : t) (image_width image_height : Z) : t :=
  image_size_set (image_size_set c 0 image_width) 1 image_height.
Definition ImageWidth (c : t) : Z := nth 0 (image_size_ c) 0%Z.
Definition ImageHeight (c : t) : Z := nth 1 (image_size_ c) 0%Z.

(** *** Constructors *)

(** [Camera(std::shared_ptr<SharedExtrinsics>)], statement by statement
    on the storage of the new object. *)
Definition ctor_run (dcheck_is_on : bool) (s : shared_ptr) : Run t unit :=
  check dcheck_is_on (match s with Some _ => true | None => false end) >>
  step (fun c => SetFocalLength c 1.0) >>
  step (fun c => SetAspectRatio c 1.0) >>
  step (fun c => SetSkew c 0.0) >>
  step (fun c => SetPrincipalPoint c 0.0 0.0) >>
  step (fun c => SetRadialDistortion c 0.0 0.0) >>
  step (fun c => SetSharedToLocalTransform c Eigen.Identity) >>
  step (fun c => SetSharedExtrinsics c s) >>
  step (fun c => image_size_set c 0 0%Z) >>
  step (fun c => image_size_set c 1 0%Z).

(** The constructor as its caller sees it: the object built on the
    storage [this]. *)
Definition ctor (dcheck_is_on : bool) (this : t) (s : shared_ptr)
  : Outcome t :=
  r <- outcome (ctor_run dcheck_is_on s this) ;;
  Ret (snd r).

(** [Camera()]: delegates to the constructor above with
    [std::make_shared<SharedExtrinsics>()]. *)
Definition default_ctor (dcheck_is_on : bool) (this : t) (h : Heap)
  : Outcome (t * Heap) :=
  let '(s, h') := make_shared h in
  c <- ctor dcheck_is_on this s ;;
  Ret (c, h').

(** *** Position *)

Definition SetPosition (c : t) (h : Heap) (position : Vector3d)
  : Outcome Heap :=
  mutable_extrinsics_update c h (fun a => write3 a SharedExtrinsics.POSITION position).

Definition GetPosition (c : t) (h : Heap) : Outcome Vector3d :=
  e <- extrinsics c h ;;
  Ret (read3 (SharedExtrinsics.extrinsics e) SharedExtrinsics.POSITION).

(** [angle * axis] *)
Definition angle_times_axis (aa : Eigen.AngleAxisd) : Vector3d :=
  V3 (Eigen.angle aa * x3 (Eigen.axis aa))
     (Eigen.angle aa * y3 (Eigen.axis aa))
     (Eigen.angle aa * z3 (Eigen.axis aa)).

(** *** Statements of a member function

    A member function runs on the object and the heap. *)

(** A statement that writes a member of the object. *)
Definition on_object (f : t -> t) : Run (t * Heap) unit :=
  step (fun s => (f (fst s), snd s)).

(** A statement that writes through
    [mutable_extrinsics().mutable_extrinsics()]. *)
Definition on_extrinsics (f : list double -> list double)
  : Run (t * Heap) unit :=
  fun s =>
    match mutable_extrinsics_update (fst s) (snd s) f with
    | Ret h => (Ret tt, (fst s, h))
    | FatalCheck => (FatalCheck, s)
    | NullDereference => (NullDereference, s)
    end.

Section WithCollaborators.
Variable ext : Collaborators.

(** *** Orientation *)

Definition SetOrientationFromRotationMatrix (c : t) (h : Heap)
    (world_to_camera_rotation : Matrix3d) : Outcome Heap :=
  let world_to_shared_rotation :=
    Eigen.mmul (Eigen.inverse (shared_to_local_rotation c))
               world_to_camera_rotation in
  mutable_extrinsics_update c h (fun a =>
    write3 a SharedExtrinsics.ORIENTATION
           (RotationMatrixToAngleAxis ext world_to_shared_rotation)).

Definition SetOrientationFromAngleAxis (c : t) (h : Heap)
    (world_to_camera_angle_axis : Vector3d) : Outcome Heap :=
  let world_to_camera_aa :=
    Eigen.AngleAxis (Eigen.norm world_to_camera_angle_axis)
                    (Vector3d_normalized ext world_to_camera_angle_axis) in
  let world_to_shared_aa :=
    AngleAxisd_of_inverse_times ext (shared_to_local_rotation c)
                                world_to_camera_aa in
  mutable_extrinsics_update c h (fun a =>
    write3 a SharedExtrinsics.ORIENTATION (angle_times_axis world_to_shared_aa)).

Definition GetOrientationAsRotationMatrix (c : t) (h : Heap)
  : Outcome Matrix3d :=
  e <- extrinsics c h ;;
  let world_to_shared_rotation :=
    AngleAxisToRotationMatrix ext
      (read3 (SharedExtrinsics.extrinsics e) SharedExtrinsics.ORIENTATION) in
  Ret (Eigen.mmul (shared_to_local_rotation c) world_to_shared_rotation).

Definition GetOrientationAsAngleAxis (c : t) (h : Heap)
  : Outcome Vector3d :=
  r <- GetOrientationAsRotationMatrix c h ;;
  Ret (angle_times_axis (AngleAxisd_of_matrix ext r)).

(** *** Initialisation from a projection matrix *)

(** [InitializeFromProjectionMatrix], statement by statement on the
    object and the heap. *)
Definition InitializeFromProjectionMatrix_run (dcheck_is_on : bool)
    (image_width image_height : Z) (projection_matrix : Matrix3x4d)
  : Run (t * Heap) bool :=
  check dcheck_is_on (image_width >? 0)%Z >>
  check dcheck_is_on (image_height >? 0)%Z >>
  on_object (fun c => image_size_set c 0 image_width) >>
  on_object (fun c => image_size_set c 1 image_height) >>
  let '(calibration_matrix, world_to_camera_rotation, position) :=
    DecomposeProjectionMatrix ext projection_matrix in
  reading (fun s =>
    let world_to_shared_rotation :=
      Eigen.mmul (Eigen.inverse (shared_to_local_rotation (fst s)))
                 world_to_camera_rotation in
    let world_to_shared_aa :=
      AngleAxisd_of_matrix ext world_to_shared_rotation in
    on_extrinsics (fun a =>
      write3 a SharedExtrinsics.ORIENTATION
             (angle_times_axis world_to_shared_aa))) >>
  on_extrinsics (fun a => write3 a SharedExtrinsics.POSITION position) >>
  if is_zero (m00 calibration_matrix) || is_zero (m11 calibration_matrix)
  then ret false
  else
    let '(focal_length, skew, aspect_ratio, ppx, ppy) :=
      CalibrationMatrixToIntrinsics ext calibration_matrix in
    on_object (fun c => mutable_intrinsics_set c FOCAL_LENGTH focal_length) >>
    on_object (fun c => mutable_intrinsics_set c SKEW skew) >>
    on_object (fun c => mutable_intrinsics_set c ASPECT_RATIO aspect_ratio) >>
    on_object (fun c => mutable_intrinsics_set c PRINCIPAL_POINT_X ppx) >>
    on_object (fun c => mutable_intrinsics_set c PRINCIPAL_POINT_Y ppy) >>
    ret true.

(** The call as its caller sees it: the flag, the object and the heap. *)
Definition InitializeFromProjectionMatrix (dcheck_is_on : bool)
    (c : t) (h : Heap) (image_width image_height : Z)
    (projection_matrix : Matrix3x4d) : Outcome (bool * t * Heap) :=
  r <- outcome (InitializeFromProjectionMatrix_run dcheck_is_on
                  image_width image_height projection_matrix (c, h)) ;;
  Ret (fst r, fst (snd r), snd (snd r)).

(** *** Projection *)

(** [RadialDistortPoint]: the distortion step of the pipeline in the
    comment that heads [class Camera],
    [r = p[0]*p[0] + p[1]*p[1]; d = 1 + k1*r + k2*r*r; p *= d]. *)
Definition RadialDistortPoint (p : Vector2d) (k1 k2 : double) : Vector2d :=
  let r := x2 p * x2 p + y2 p * y2 p in
  let d := 1.0 + k1 * r + k2 * r * r in
  V2 (x2 p * d) (y2 p * d).

(** Modelled from the spec: [ProjectPointToImage] is declared in
    [project_point_to_image.h], which is not under src/.  It follows the
    pipeline in the comment that heads [class Camera] and section 4.4 of
    the spec:
    [p = R * (X[0..2] / X[3] - C); p = p[0,1] / p[2]; p *= d; p = K * p]
    where [R] is the world-to-local rotation (the local offset times the
    stored world-to-shared rotation) and [C] the stored position, and it
    returns the depth [p[2]] of the point along the viewing axis. *)
Definition ProjectPointToImage (extrinsics intrinsics : list double)
    (point : Vector4d) (shared_to_camera : Matrix3d) : double * Vector2d :=
  let R := Eigen.mmul shared_to_camera
             (AngleAxisToRotationMatrix ext
                (read3 extrinsics SharedExtrinsics.ORIENTATION)) in
  let C := read3 extrinsics SharedExtrinsics.POSITION in
  let X := V3 (x4 point / w4 point) (y4 point / w4 point)
              (z4 point / w4 point) in
  let p := Eigen.mvmul R (Eigen.vsub X C) in
  let depth := z3 p in
  let n := V2 (x3 p / depth) (y3 p / depth) in
  let q := RadialDistortPoint n (read intrinsics RADIAL_DISTORTION_1)
                                (read intrinsics RADIAL_DISTORTION_2) in
  let focal_length := read intrinsics FOCAL_LENGTH in
  let pixel :=
    V2 (focal_length * x2 q + read intrinsics SKEW * y2 q
        + read intrinsics PRINCIPAL_POINT_X)
       (focal_length * read intrinsics ASPECT_RATIO * y2 q
        + read intrinsics PRINCIPAL_POINT_Y) in
  (depth, pixel).

(** [ProjectPoint(point, &pixel)]: the depth it returns and the pixel
    it writes. *)
Definition ProjectPoint (c : t) (h : Heap) (point : Vector4d)
  : Outcome (double * Vector2d) :=
  e <- extrinsics c h ;;
  Ret (ProjectPointToImage (SharedExtrinsics.extrinsics e) (intrinsics c)
                           point (GetSharedToLocalTransform c)).

Definition focal_length_y (c : t) : double := FocalLength c * AspectRatio c.

Definition PixelToUnitDepthRay (c : t) (h : Heap) (pixel : Vector2d)
  : Outcome Vector3d :=
  (* First, undo the calibration. *)
  let y_normalized := (y2 pixel - PrincipalPointY c) / focal_length_y c in
  let x_normalized :=
    (x2 pixel - PrincipalPointX c - y_normalized * Skew c) / FocalLength c in
  (* Undo radial distortion. *)
  let normalized_point := V2 x_normalized y_normalized in
  let undistorted_point :=
    RadialUndistortPoint ext normalized_point
                         (RadialDistortion1 c) (RadialDistortion2 c) in
  (* Apply rotation. *)
  rotation <- GetOrientationAsRotationMatrix c h ;;
  Ret (Eigen.mvmul (Eigen.transpose rotation)
                   (Eigen.homogeneous undistorted_point)).
End WithCollaborators.

End Camera.

(* ================================================================== *)
(** ** Persistence with cereal

    A [serialize] method hands its members to the archive in one call
    [ar(a1, a2, ...)]; the archive processes the arguments from left to
    right.  The persisted form of an object is the sequence of arguments
    its [serialize] passes. *)

Definition sizeof_double : nat := 8.
Definition sizeof_int : nat := 4.

Inductive archive_arg : Type :=
| binary_data_double (data : list double) (size : nat)
    (** [cereal::binary_data(p, size)]: [size] raw bytes from [p] on *)
| binary_data_int (data : list Z) (size : nat)
| shared_ptr_arg (p : shared_ptr)
    (** a [std::shared_ptr]: cereal writes the pointed object once per
        archive and an identifier for every later occurrence *)
| array_arg (a : list double)
    (** a C array passed as it is *)
| size_t_arg (n : nat).
    (** an integer passed by value *)

(** [Camera::serialize] *)
Definition Camera_serialize (c : Camera.t) : list archive_arg :=
  [ binary_data_double (Camera.camera_parameters_ c)
                       (sizeof_double * Camera.kIntrinsicsSize);
    shared_ptr_arg (Camera.shared_extrinsics c);
    binary_data_double (Eigen.data (Camera.shared_to_local_rotation c))
                       (sizeof_double * 9);
    binary_data_int (Camera.image_size_ c) (sizeof_int * 2) ].

(** [SharedExtrinsics::serialize]: [ar(parameters, sizeof(double) *
    kExtrinsicsSize)]. *)
Definition SharedExtrinsics_serialize (s : SharedExtrinsics.t)
  : list archive_arg :=
  [ array_arg (SharedExtrinsics.parameters s);
    size_t_arg (sizeof_double * SharedExtrinsics.kExtrinsicsSize) ].

(** The values an argument puts into a binary archive, in order.  [ptr p]
    stands for what cereal writes for the shared pointer [p]: an
    identifier and, at the first occurrence of [p] in the archive, the
    pointed object through its own [serialize]. *)
Inductive datum : Type :=
| f64 (d : double)
| i32 (z : Z)
| u64 (n : nat)
| ptr (p : shared_ptr).

Definition written (a : archive_arg) : list datum :=
  match a with
  | binary_data_double data size => map f64 (firstn (size / sizeof_double) data)
  | binary_data_int data size => map i32 (firstn (size / sizeof_int) data)
  | shared_ptr_arg p => [ptr p]
  | array_arg a => map f64 a
  | size_t_arg n => [u64 n]
  end.

Definition persisted (args : list archive_arg) : list datum :=
  flat_map written args.

(** The persisted form of a [SharedExtrinsics] in the words of the spec:
    its 6-value block as raw binary. *)
Definition SharedExtrinsics_persisted_spec (s : SharedExtrinsics.t)
  : list datum :=
  map f64 (firstn SharedExtrinsics.kExtrinsicsSize (SharedExtrinsics.parameters s)).

(* ================================================================== *)
(** ** Vocabulary of the specification *)

(** A rotation matrix: orthogonal with determinant one.  Both equations
    are between doubles, so they also say that every coefficient is
    finite. *)
Definition is_rotation (m : Matrix3d) : Prop :=
  Eigen.mmul (Eigen.transpose m) m = Eigen.Identity /\
  Eigen.determinant m = Some 1%R.

(** A matrix of finite coefficients, row by row. *)
Definition mat (a b c d e f g h i : R) : Matrix3d :=
  M3 (Some a) (Some b) (Some c)
     (Some d) (Some e) (Some f)
     (Some g) (Some h) (Some i).

(** A 3-vector of finite coordinates. *)
Definition vec3 (a b c : R) : Vector3d := V3 (Some a) (Some b) (Some c).

(** The canonical default of the constructors. *)
Definition default_intrinsics (c : Camera.t) : Prop :=
  Camera.FocalLength c = Some 1%R /\
  Camera.AspectRatio c = Some 1%R /\
  Camera.Skew c = Some 0%R /\
  Camera.PrincipalPointX c = Some 0%R /\
  Camera.PrincipalPointY c = Some 0%R /\
  Camera.RadialDistortion1 c = Some 0%R /\
  Camera.RadialDistortion2 c = Some 0%R.

(** The cameras one gets from a constructor by the public setters and by
    writes through the raw intrinsics accessor. *)
Inductive reachable : Camera.t -> Prop :=
| reach_ctor dcheck_is_on this s c :
    Camera.wf this -> Camera.ctor dcheck_is_on this s = Ret c -> reachable c
| reach_SetFocalLength c v : reachable c -> reachable (Camera.SetFocalLength c v)
| reach_SetAspectRatio c v : reachable c -> reachable (Camera.SetAspectRatio c v)
| reach_SetSkew c v : reachable c -> reachable (Camera.SetSkew c v)
| reach_SetPrincipalPoint c u v :
    reachable c -> reachable (Camera.SetPrincipalPoint c u v)
| reach_SetRadialDistortion c u v :
    reachable c -> reachable (Camera.SetRadialDistortion c u v)
| reach_SetImageSize c w ht : reachable c -> reachable (Camera.SetImageSize c w ht)
| reach_SetSharedExtrinsics c s :
    reachable c -> reachable (Camera.SetSharedExtrinsics c s)
| reach_SetSharedToLocalTransform c m :
    reachable c -> reachable (Camera.SetSharedToLocalTransform c m)
| reach_mutable_intrinsics c i v :
    (i < Camera.kIntrinsicsSize)%nat -> reachable c ->
    reachable (Camera.mutable_intrinsics_set c i v).

(* ================================================================== *)
(** ** Sample objects *)

Module Sample.

Local Open Scope double_scope.

(** Collaborators that are exact on the samples below: the ceres
    conversions are those of a rotation by the zero angle and its first
    order neighbourhood, Eigen's angle-axis values those of the identity
    rotation, the decomposition is that of a projection matrix
    [K [I | 0]], the undistortion that of the distortion coefficients
    [(0, 0)]. *)
Definition collaborators : Collaborators := {|
  RotationMatrixToAngleAxis m :=
    V3 ((m21 m - m12 m) / Some 2%R) ((m02 m - m20 m) / Some 2%R)
       ((m10 m - m01 m) / Some 2%R);
  AngleAxisToRotationMatrix v :=
    M3 1.0 (- z3 v) (y3 v)
       (z3 v) 1.0 (- x3 v)
       (- y3 v) (x3 v) 1.0;
  Vector3d_normalized v := Eigen.vdiv v (Eigen.norm v);
  AngleAxisd_of_matrix m := Eigen.AngleAxis 0.0 (V3 1.0 0.0 0.0);
  AngleAxisd_of_inverse_times m aa := aa;
  DecomposeProjectionMatrix P :=
    (M3 (p00 P) (p01 P) (p02 P) (p10 P) (p11 P) (p12 P) (p20 P) (p21 P) (p22 P),
     Eigen.Identity, V3 0.0 0.0 0.0);
  CalibrationMatrixToIntrinsics K :=
    (m00 K, m01 K, m11 K / m00 K, m02 K, m12 K);
  RadialUndistortPoint p k1 k2 := p
|}.

(** The storage of a camera before its constructor runs. *)
Definition storage : Camera.t :=
  Camera.Build (repeat None Camera.kIntrinsicsSize) None
               (M3 None None None None None None None None None)
               (repeat 0%Z 2).

(** The camera [Camera()] builds on an empty heap, and the heap after. *)
Definition camera : Camera.t :=
  Camera.Build [1.0; 1.0; 0.0; 0.0; 0.0; 0.0; 0.0] (Some 0%nat)
               Eigen.Identity [0%Z; 0%Z].

Definition heap : Heap := [SharedExtrinsics.ctor].

(** The rotation by a quarter turn about the viewing axis. *)
Definition quarter_turn : Matrix3d :=
  M3 0.0 (Some (-1)%R) 0.0
     1.0 0.0 0.0
     0.0 0.0 1.0.

(** A second camera of the same rig, turned by a quarter. *)
Definition camera2 : Camera.t :=
  Camera.SetSharedToLocalTransform camera quarter_turn.

(** The projection matrix [K [I | 0]] with [K = diag(2, 3, 1)]. *)
Definition projection_matrix : Matrix3x4d :=
  M3x4 (Some 2%R) 0.0 0.0 0.0
       0.0 (Some 3%R) 0.0 0.0
       0.0 0.0 1.0 0.0.

(** A projection matrix whose calibration has a zero focal term. *)
Definition degenerate_projection_matrix : Matrix3x4d :=
  M3x4 0.0 0.0 0.0 0.0
       0.0 (Some 3%R) 0.0 0.0
       0.0 0.0 1.0 0.0.

(** The default camera after [SetFocalLength(0.0)]. *)
Definition flat_camera : Camera.t :=
  Camera.SetFocalLength camera 0.0.

(** A point in front of the default camera, and its pixel. *)
Definition point : Vector4d := V4 (Some 2%R) (Some 4%R) (Some 2%R) 1.0.

Definition pixel : Vector2d := V2 1.0 (Some 2%R).

End Sample.

(* ================================================================== *)
(** ** Calibration and projection matrices

    [IntrinsicsToCalibrationMatrix] and [ComposeProjectionMatrix] are
    declared in [projection_matrix_utils.h], which is not under src/; the
    two getters that call them are embedded over them. *)

Record MatrixCollaborators := {
  (** [IntrinsicsToCalibrationMatrix(focal_length, skew, aspect_ratio,
      principal_point_x, principal_point_y, &K)] *)
  IntrinsicsToCalibrationMatrix :
    double -> double -> double -> double -> double -> Matrix3d;
  (** [ComposeProjectionMatrix(K, rotation, position, &P)] *)
  ComposeProjectionMatrix : Matrix3d -> Matrix3d -> Vector3d -> Matrix3x4d
}.

(** [Camera::GetCalibrationMatrix] *)
Definition GetCalibrationMatrix (mx : MatrixCollaborators) (c : Camera.t)
  : Matrix3d :=
  IntrinsicsToCalibrationMatrix mx
    (Camera.FocalLength c) (Camera.Skew c) (Camera.AspectRatio c)
    (Camera.PrincipalPointX c) (Camera.PrincipalPointY c).

(** [Camera::GetProjectionMatrix] *)
Definition GetProjectionMatrix (ext : Collaborators) (mx : MatrixCollaborators)
    (c : Camera.t) (h : Heap) : Outcome Matrix3x4d :=
  let calibration_matrix := GetCalibrationMatrix mx c in
  rotation <- Camera.GetOrientationAsRotationMatrix ext c h ;;
  position <- Camera.GetPosition c h ;;
  Ret (ComposeProjectionMatrix mx calibration_matrix rotation position).

Module Rig.

Local Open Scope double_scope.

(** The calibration matrix of the comment that heads [class Camera], and
    the composition [K [R | -R C]] where it is exact: at [R] the identity
    and [C] the origin. *)
Definition matrix_collaborators : MatrixCollaborators := {|
  IntrinsicsToCalibrationMatrix f s a px py :=
    M3 f s px
       0.0 (f * a) py
       0.0 0.0 1.0;
  ComposeProjectionMatrix K R C :=
    M3x4 (m00 K) (m01 K) (m02 K) 0.0
         (m10 K) (m11 K) (m12 K) 0.0
         (m20 K) (m21 K) (m22 K) 0.0
|}.

(** A heap of two blocks, and a camera bound to the second one. *)
Definition heap : Heap := [SharedExtrinsics.ctor; SharedExtrinsics.ctor].

Definition other_camera : Camera.t :=
  Camera.SetSharedExtrinsics Sample.camera (Some 1%nat).

End Rig.

(* ================================================================== *)
(** ** The camera over binary64

    Exact arithmetic cannot tell whether a [double] is zero, an infinity
    or a NaN: a product of two nonzero reals is not zero, a product of two
    small doubles is.  Where a property is about that, the code is read
    over IEEE 754 binary64, the primitive floats of Rocq: each operation
    rounds to nearest even, overflows to an infinity and underflows to
    zero as a [double] operation does, [x / 0.0] is an infinity or a NaN,
    and [==] compares as C++ does ([0.0 == -0.0], and a NaN equals
    nothing).  Objects, indices, pointers and the heap are laid out as
    above. *)

Module Binary64.

Local Open Scope float_scope.

Definition double : Type := float.

(** A double that is zero or a NaN: as a divisor it gives an infinity or
    a NaN, whatever the dividend. *)
Definition zero_or_nan (x : double) : bool := (x =? 0) || PrimFloat.is_nan x.

Record Vector2d := V2 { x2 : double; y2 : double }.
Record Vector3d := V3 { x3 : double; y3 : double; z3 : double }.

Record Matrix3d := M3 {
  m00 : double; m01 : double; m02 : double;
  m10 : double; m11 : double; m12 : double;
  m20 : double; m21 : double; m22 : double }.

Module Eigen.

Definition Identity : Matrix3d :=
  M3 1 0 0
     0 1 0
     0 0 1.

Definition mmul (a b : Matrix3d) : Matrix3d :=
  M3 (m00 a * m00 b + m01 a * m10 b + m02 a * m20 b)
     (m00 a * m01 b + m01 a * m11 b + m02 a * m21 b)
     (m00 a * m02 b + m01 a * m12 b + m02 a * m22 b)
     (m10 a * m00 b + m11 a * m10 b + m12 a * m20 b)
     (m10 a * m01 b + m11 a * m11 b + m12 a * m21 b)
     (m10 a * m02 b + m11 a * m12 b + m12 a * m22 b)
     (m20 a * m00 b + m21 a * m10 b + m22 a * m20 b)
     (m20 a * m01 b + m21 a * m11 b + m22 a * m21 b)
     (m20 a * m02 b + m21 a * m12 b + m22 a * m22 b).

Definition mvmul (a : Matrix3d) (v : Vector3d) : Vector3d :=
  V3 (m00 a * x3 v + m01 a * y3 v + m02 a * z3 v)
     (m10 a * x3 v + m11 a * y3 v + m12 a * z3 v)
     (m20 a * x3 v + m21 a * y3 v + m22 a * z3 v).

Definition transpose (a : Matrix3d) : Matrix3d :=
  M3 (m00 a) (m10 a) (m20 a)
     (m01 a) (m11 a) (m21 a)
     (m02 a) (m12 a) (m22 a).

(** [v / s] *)
Definition vdiv (v : Vector3d) (s : double) : Vector3d :=
  V3 (x3 v / s) (y3 v / s) (z3 v / s).

Definition squaredNorm (v : Vector3d) : double :=
  x3 v * x3 v + y3 v * y3 v + z3 v * z3 v.

(** [v.norm()]: the square root of the squared norm. *)
Definition norm (v : Vector3d) : double := PrimFloat.sqrt (squaredNorm v).

(** [v.normalized()] as Eigen 3.3 and later have it: the quotient of [v]
    by the square root of its squared norm [z] when [z > 0], and [v] as
    it is otherwise.  (Releases before 3.3 return [v / v.norm()] without
    the test.) *)
Definition normalized (v : Vector3d) : Vector3d :=
  let z := squaredNorm v in
  if 0 <? z then vdiv v (PrimFloat.sqrt z) else v.

(** [p.homogeneous()] on a 2-vector. *)
Definition homogeneous (p : Vector2d) : Vector3d := V3 (x2 p) (y2 p) 1.

(** [Eigen::AngleAxisd]: an angle and an axis. *)
Record AngleAxisd := AngleAxis { angle : double; axis : Vector3d }.

End Eigen.

(** [a[i]] on an array of doubles. *)
Definition read (a : list double) (i : nat) : double := nth i a nan.

(** [Map<const Vector3d>(a + off)] *)
Definition read3 (a : list double) (off : nat) : Vector3d :=
  V3 (read a off) (read a (off + 1)) (read a (off + 2)).

(** [Map<Vector3d>(a + off) = v] *)
Definition write3 (a : list double) (off : nat) (v : Vector3d) : list double :=
  write (write (write a off (x3 v)) (off + 1) (y3 v)) (off + 2) (z3 v).

Module SharedExtrinsics.

(** [enum ExternalParametersIndex] *)
Definition POSITION : nat := 0.
Definition ORIENTATION : nat := 3.
Definition kExtrinsicsSize : nat := 6.

(** [double parameters[kExtrinsicsSize]] *)
Record t := Build { parameters : list double }.

Definition wf (s : t) : Prop := length (parameters s) = kExtrinsicsSize.

Definition extrinsics (s : t) : list double := parameters s.

End SharedExtrinsics.

Definition Heap : Type := list SharedExtrinsics.t.

(** [*p] *)
Definition deref (h : Heap) (p : shared_ptr) : Outcome SharedExtrinsics.t :=
  match p with
  | None => NullDereference
  | Some l =>
      match nth_error h l with
      | Some s => Ret s
      | None => NullDereference
      end
  end.

Definition valid (h : Heap) (p : shared_ptr) : Prop :=
  exists l s, p = Some l /\ nth_error h l = Some s /\ SharedExtrinsics.wf s.

Definition store (h : Heap) (l : nat) (s : SharedExtrinsics.t) : Heap :=
  write h l s.

(** The routines of ceres, Eigen and [radial_distortion.h] that the two
    member functions below call. *)
Record Collaborators := {
  (** [ceres::AngleAxisToRotationMatrix] *)
  AngleAxisToRotationMatrix : Vector3d -> Matrix3d;
  (** [v.normalized()] on a [Vector3d] *)
  Vector3d_normalized : Vector3d -> Vector3d;
  (** [Eigen::AngleAxisd(Eigen::Quaterniond(m).inverse() * aa)] *)
  AngleAxisd_of_inverse_times : Matrix3d -> Eigen.AngleAxisd -> Eigen.AngleAxisd;
  (** [RadialUndistortPoint(point, k1, k2, &undistorted_point)] *)
  RadialUndistortPoint : Vector2d -> double -> double -> Vector2d
}.

Module Camera.

(** [enum InternalParametersIndex] *)
Definition FOCAL_LENGTH : nat := 0.
Definition ASPECT_RATIO : nat := 1.
Definition SKEW : nat := 2.
Definition PRINCIPAL_POINT_X : nat := 3.
Definition PRINCIPAL_POINT_Y : nat := 4.
Definition RADIAL_DISTORTION_1 : nat := 5.
Definition RADIAL_DISTORTION_2 : nat := 6.

Definition kIntrinsicsSize : nat := 7.

Record t := Build {
  camera_parameters_ : list double;      (* double [kIntrinsicsSize] *)
  shared_extrinsics : shared_ptr;
  shared_to_local_rotation : Matrix3d;
  image_size_ : list Z                    (* int [2] *)
}.

Definition wf (c : t) : Prop :=
  length (camera_parameters_ c) = kIntrinsicsSize /\
  length (image_size_ c) = 2%nat.

Definition intrinsics (c : t) : list double := camera_parameters_ c.

(** [mutable_intrinsics()[i] = v] *)
Definition mutable_intrinsics_set (c : t) (i : nat) (v : double) : t :=
  Build (write (camera_parameters_ c) i v) (shared_extrinsics c)
        (shared_to_local_rotation c) (image_size_ c).

(** [extrinsics()]: [*shared_extrinsics]. *)
Definition extrinsics (c : t) (h : Heap) : Outcome SharedExtrinsics.t :=
  deref h (shared_extrinsics c).

(** A write through [mutable_extrinsics().mutable_extrinsics()]. *)
Definition mutable_extrinsics_update (c : t) (h : Heap)
    (f : list double -> list double) : Outcome Heap :=
  match shared_extrinsics c with
  | None => NullDereference
  | Some l =>
      match nth_error h l with
      | Some s =>
          Ret (store h l (SharedExtrinsics.Build (f (SharedExtrinsics.parameters s))))
      | None => NullDereference
      end
  end.

Definition SetSharedExtrinsics (c : t) (s : shared_ptr) : t :=
  Build (camera_parameters_ c) s (shared_to_local_rotation c) (image_size_ c).

Definition SetSharedToLocalTransform (c : t) (m : Matrix3d) : t :=
  Build (camera_parameters_ c) (shared_extrinsics c) m (image_size_ c).

Definition SetFocalLength (c : t) (focal_length : double) : t :=
  mutable_intrinsics_set c FOCAL_LENGTH focal_length.
Definition FocalLength (c : t) : double := read (intrinsics c) FOCAL_LENGTH.

Definition SetAspectRatio (c : t) (aspect_ratio : double) : t :=
  mutable_intrinsics_set c ASPECT_RATIO aspect_ratio.
Definition AspectRatio (c : t) : double := read (intrinsics c) ASPECT_RATIO.

Definition SetSkew (c : t) (skew : double) : t :=
  mutable_intrinsics_set c SKEW skew.
Definition Skew (c : t) : double := read (intrinsics c) SKEW.

Definition SetPrincipalPoint (c : t) (ppx ppy : double) : t :=
  mutable_intrinsics_set
    (mutable_intrinsics_set c PRINCIPAL_POINT_X ppx) PRINCIPAL_POINT_Y ppy.
Definition PrincipalPointX (c : t) : double :=
  read (intrinsics c) PRINCIPAL_POINT_X.
Definition PrincipalPointY (c : t) : double :=
  read (intrinsics c) PRINCIPAL_POINT_Y.

Definition SetRadialDistortion (c : t) (k1 k2 : double) : t :=
  mutable_intrinsics_set
    (mutable_intrinsics_set c RADIAL_DISTORTION_1 k1) RADIAL_DISTORTION_2 k2.
Definition RadialDistortion1 (c : t) : double :=
  read (intrinsics c) RADIAL_DISTORTION_1.
Definition RadialDistortion2 (c : t) : double :=
  read (intrinsics c) RADIAL_DISTORTION_2.

(** [image_size_[i] = v] *)
Definition image_size_set (c : t) (i : nat) (v : Z) : t :=
  Build (camera_parameters_ c) (shared_extrinsics c)
        (shared_to_local_rotation c) (write (image_size_ c) i v).

Definition SetImageSize (c : t) (image_width image_height : Z) : t :=
  image_size_set (image_size_set c 0 image_width) 1 image_height.

(** [Camera(std::shared_ptr<SharedExtrinsics>)], as its caller sees it. *)
Definition ctor (dcheck_is_on : bool) (this : t) (s : shared_ptr)
  : Outcome t :=
  _ <- DCHECK dcheck_is_on (match s with Some _ => true | None => false end) ;;
  let c := SetFocalLength this 1 in
  let c := SetAspectRatio c 1 in
  let c := SetSkew c 0 in
  let c := SetPrincipalPoint c 0 0 in
  let c := SetRadialDistortion c 0 0 in
  let c := SetSharedToLocalTransform c Eigen.Identity in
  let c := SetSharedExtrinsics c s in
  let c := image_size_set c 0 0%Z in
  Ret (image_size_set c 1 0%Z).

(** [angle * axis] *)
Definition angle_times_axis (aa : Eigen.AngleAxisd) : Vector3d :=
  V3 (Eigen.angle aa * x3 (Eigen.axis aa))
     (Eigen.angle aa * y3 (Eigen.axis aa))
     (Eigen.angle aa * z3 (Eigen.axis aa)).

Section WithCollaborators.
Variable ext : Collaborators.

Definition SetOrientationFromAngleAxis (c : t) (h : Heap)
    (world_to_camera_angle_axis : Vector3d) : Outcome Heap :=
  let world_to_camera_aa :=
    Eigen.AngleAxis (Eigen.norm world_to_camera_angle_axis)
                    (Vector3d_normalized ext world_to_camera_angle_axis) in
  let world_to_shared_aa :=
    AngleAxisd_of_inverse_times ext (shared_to_local_rotation c)
                                world_to_camera_aa in
  mutable_extrinsics_update c h (fun a =>
    write3 a SharedExtrinsics.ORIENTATION (angle_times_axis world_to_shared_aa)).

Definition GetOrientationAsRotationMatrix (c : t) (h : Heap)
  : Outcome Matrix3d :=
  e <- extrinsics c h ;;
  let world_to_shared_rotation :=
    AngleAxisToRotationMatrix ext
      (read3 (SharedExtrinsics.extrinsics e) SharedExtrinsics.ORIENTATION) in
  Ret (Eigen.mmul (shared_to_local_rotation c) world_to_shared_rotation).

Definition PixelToUnitDepthRay (c : t) (h : Heap) (pixel : Vector2d)
  : Outcome Vector3d :=
  (* First, undo the calibration. *)
  let focal_length_y := FocalLength c * AspectRatio c in
  let y_normalized := (y2 pixel - PrincipalPointY c) / focal_length_y in
  let x_normalized :=
    (x2 pixel - PrincipalPointX c - y_normalized * Skew c) / FocalLength c in
  (* Undo radial distortion. *)
  let normalized_point := V2 x_normalized y_normalized in
  let undistorted_point :=
    RadialUndistortPoint ext normalized_point
                         (RadialDistortion1 c) (RadialDistortion2 c) in
  (* Apply rotation. *)
  rotation <- GetOrientationAsRotationMatrix c h ;;
  Ret (Eigen.mvmul (Eigen.transpose rotation)
                   (Eigen.homogeneous undistorted_point)).
End WithCollaborators.

End Camera.

(** The cameras one gets from the constructor by the public setters and
    by writes through the raw intrinsics accessor. *)
Inductive reachable : Camera.t -> Prop :=
| reach_ctor dcheck_is_on this s c :
    Camera.wf this -> Camera.ctor dcheck_is_on this s = Ret c -> reachable c
| reach_SetFocalLength c v : reachable c -> reachable (Camera.SetFocalLength c v)
| reach_SetAspectRatio c v : reachable c -> reachable (Camera.SetAspectRatio c v)
| reach_SetSkew c v : reachable c -> reachable (Camera.SetSkew c v)
| reach_SetPrincipalPoint c u v :
    reachable c -> reachable (Camera.SetPrincipalPoint c u v)
| reach_SetRadialDistortion c u v :
    reachable c -> reachable (Camera.SetRadialDistortion c u v)
| reach_SetImageSize c w ht : reachable c -> reachable (Camera.SetImageSize c w ht)
| reach_SetSharedExtrinsics c s :
    reachable c -> reachable (Camera.SetSharedExtrinsics c s)
| reach_SetSharedToLocalTransform c m :
    reachable c -> reachable (Camera.SetSharedToLocalTransform c m)
| reach_mutable_intrinsics c i v :
    (i < Camera.kIntrinsicsSize)%nat -> reachable c ->
    reachable (Camera.mutable_intrinsics_set c i v).

Module Sample.

(** Collaborators that are exact on the samples below: the ceres
    conversion is that of the zero angle-axis and its first order
    neighbourhood, [normalized()] is Eigen 3.3's, the offset is the
    identity, and the undistortion is that of the distortion
    coefficients [(0, 0)]. *)
Definition collaborators : Collaborators := {|
  AngleAxisToRotationMatrix v :=
    M3 1 (- z3 v) (y3 v)
       (z3 v) 1 (- x3 v)
       (- y3 v) (x3 v) 1;
  Vector3d_normalized := Eigen.normalized;
  AngleAxisd_of_inverse_times m aa := aa;
  RadialUndistortPoint p k1 k2 := p
|}.

(** The storage of a camera before its constructor runs. *)
Definition storage : Camera.t :=
  Camera.Build (repeat nan Camera.kIntrinsicsSize) None
               (M3 nan nan nan nan nan nan nan nan nan)
               (repeat 0%Z 2).

(** The camera the constructor builds on it for the first object of the
    heap, and a heap whose first object is at the origin with the
    identity orientation. *)
Definition camera : Camera.t :=
  Camera.Build [1; 1; 0; 0; 0; 0; 0] (Some 0%nat) Eigen.Identity [0%Z; 0%Z].

Definition heap : Heap := [SharedExtrinsics.Build [0; 0; 0; 0; 0; 0]].

(** The camera after [SetFocalLength(0.0)]. *)
Definition flat_camera : Camera.t := Camera.SetFocalLength camera 0.

(** The camera after [SetFocalLength(0x1p-600)] and
    [SetAspectRatio(0x1p-600)]: both are finite and not zero, their
    product underflows. *)
Definition tiny_camera : Camera.t :=
  Camera.SetAspectRatio (Camera.SetFocalLength camera 0x1p-600) 0x1p-600.

Definition pixel : Vector2d := V2 1 2.

End Sample.

End Binary64.

(* ================================================================== *)
(** * Facts about arrays *)

Section ArrayFacts.
Context {A : Type}.

Lemma write_length (a : list A) i v : length (write a i v) = length a.
Proof.
  revert i; induction a as [|x t IH]; intros [|j]; simpl; auto.
Qed.

Lemma nth_write_same (a : list A) i v d :
  (i < length a)%nat -> nth i (write a i v) d = v.
Proof.
  revert i; induction a as [|x t IH]; intros [|j] Hi; simpl in *;
    try lia; auto.
  apply IH; lia.
Qed.

Lemma nth_write_other (a : list A) i j v d :
  i <> j -> nth j (write a i v) d = nth j a d.
Proof.
  revert i j; induction a as [|x t IH]; intros [|i] [|j] Hij; simpl;
    try congruence; auto.
Qed.

Lemma nth_error_write_same (a : list A) i v :
  (i < length a)%nat -> nth_error (write a i v) i = Some v.
Proof.
  revert i; induction a as [|x t IH]; intros [|j] Hi; simpl in *;
    try lia; auto.
  apply IH; lia.
Qed.

Lemma nth_error_write_other (a : list A) i j v :
  i <> j -> nth_error (write a i v) j = nth_error a j.
Proof.
  revert i j; induction a as [|x t IH]; intros [|i] [|j] Hij; simpl;
    try congruence; auto.
Qed.
End ArrayFacts.

Lemma write3_length a off v : length (write3 a off v) = length a.
Proof. unfold write3. now rewrite !write_length. Qed.

Lemma read3_write3_same a off v :
  (off + 2 < length a)%nat -> read3 (write3 a off v) off = v.
Proof.
  intros H. destruct v as [vx vy vz]. unfold read3, read, write3. simpl.
  f_equal.
  - rewrite !nth_write_other by lia. apply nth_write_same. lia.
  - rewrite nth_write_other by lia. apply nth_write_same.
    rewrite write_length. lia.
  - apply nth_write_same. rewrite !write_length. lia.
Qed.

Lemma read3_write3_other a off off' v :
  (off + 2 < off' \/ off' + 2 < off)%nat ->
  read3 (write3 a off v) off' = read3 a off'.
Proof.
  intros H. unfold read3, read, write3.
  f_equal; rewrite !nth_write_other by lia; reflexivity.
Qed.


(* ================================================================== *)
(** * Facts about the heap *)

Lemma deref_store_same (h : Heap) l s s' :
  nth_error h l = Some s -> deref (store h l s') (Some l) = Ret s'.
Proof.
  intros H. unfold deref, store.
  rewrite nth_error_write_same; [reflexivity|].
  apply nth_error_Some. congruence.
Qed.

Lemma update_returns (c : Camera.t) (h : Heap) f l s :
  Camera.shared_extrinsics c = Some l -> nth_error h l = Some s ->
  Camera.mutable_extrinsics_update c h f
  = Ret (store h l (SharedExtrinsics.Build (f (SharedExtrinsics.parameters s)))).
Proof.
  intros Hp Hl. unfold Camera.mutable_extrinsics_update. now rewrite Hp, Hl.
Qed.

Lemma extrinsics_after_update (c c' : Camera.t) (h : Heap) f l s :
  Camera.shared_extrinsics c = Some l ->
  Camera.shared_extrinsics c' = Some l ->
  nth_error h l = Some s ->
  exists h',
    Camera.mutable_extrinsics_update c h f = Ret h' /\
    Camera.extrinsics c' h'
    = Ret (SharedExtrinsics.Build (f (SharedExtrinsics.parameters s))) /\
    length h' = length h.
Proof.
  intros Hc Hc' Hl. eexists. split; [|split].
  - eapply update_returns; eassumption.
  - unfold Camera.extrinsics. rewrite Hc'. eapply deref_store_same; eassumption.
  - unfold store. apply write_length.
Qed.

Lemma make_shared_fresh (h : Heap) :
  ~ valid h (fst (make_shared h)).
Proof.
  intros (l & s & Hp & Hl & _). simpl in Hp. injection Hp as <-.
  assert (length h < length h)%nat by (apply nth_error_Some; congruence).
  lia.
Qed.

(* ================================================================== *)
(** * The calls with checks, as their callers see them *)

(** A constructor call either aborts on its check or returns the object
    with every statement of the body applied. *)
Lemma ctor_body dcheck_is_on this s :
  Camera.ctor dcheck_is_on this s
  = (_ <- DCHECK dcheck_is_on
            (match s with Some _ => true | None => false end) ;;
     let c := Camera.SetFocalLength this (Some 1%R) in
     let c := Camera.SetAspectRatio c (Some 1%R) in
     let c := Camera.SetSkew c (Some 0%R) in
     let c := Camera.SetPrincipalPoint c (Some 0%R) (Some 0%R) in
     let c := Camera.SetRadialDistortion c (Some 0%R) (Some 0%R) in
     let c := Camera.SetSharedToLocalTransform c Eigen.Identity in
     let c := Camera.SetSharedExtrinsics c s in
     let c := Camera.image_size_set c 0 0%Z in
     Ret (Camera.image_size_set c 1 0%Z)).
Proof.
  unfold Camera.ctor, Camera.ctor_run, seq, check, step, outcome.
  destruct (DCHECK dcheck_is_on _); reflexivity.
Qed.

(** A call of [InitializeFromProjectionMatrix] that returns gives the
    flag, the object and the heap its statements have reached. *)
Lemma InitializeFromProjectionMatrix_body ext dcheck_is_on c h
    image_width image_height projection_matrix :
  Camera.InitializeFromProjectionMatrix ext dcheck_is_on c h
    image_width image_height projection_matrix
  = (_ <- DCHECK dcheck_is_on (image_width >? 0)%Z ;;
     _ <- DCHECK dcheck_is_on (image_height >? 0)%Z ;;
     let c := Camera.image_size_set c 0 image_width in
     let c := Camera.image_size_set c 1 image_height in
     let '(calibration_matrix, world_to_camera_rotation, position) :=
       DecomposeProjectionMatrix ext projection_matrix in
     let world_to_shared_rotation :=
       Eigen.mmul (Eigen.inverse (Camera.shared_to_local_rotation c))
                  world_to_camera_rotation in
     let world_to_shared_aa :=
       AngleAxisd_of_matrix ext world_to_shared_rotation in
     h <- Camera.mutable_extrinsics_update c h (fun a =>
            write3 a SharedExtrinsics.ORIENTATION
                   (Camera.angle_times_axis world_to_shared_aa)) ;;
     h <- Camera.mutable_extrinsics_update c h (fun a =>
            write3 a SharedExtrinsics.POSITION position) ;;
     if is_zero (m00 calibration_matrix) || is_zero (m11 calibration_matrix)
     then Ret (false, c, h)
     else
       let '(focal_length, skew, aspect_ratio, ppx, ppy) :=
         CalibrationMatrixToIntrinsics ext calibration_matrix in
       let c := Camera.mutable_intrinsics_set c Camera.FOCAL_LENGTH focal_length in
       let c := Camera.mutable_intrinsics_set c Camera.SKEW skew in
       let c := Camera.mutable_intrinsics_set c Camera.ASPECT_RATIO aspect_ratio in
       let c := Camera.mutable_intrinsics_set c Camera.PRINCIPAL_POINT_X ppx in
       let c := Camera.mutable_intrinsics_set c Camera.PRINCIPAL_POINT_Y ppy in
       Ret (true, c, h)).
Proof.
  unfold Camera.InitializeFromProjectionMatrix,
    Camera.InitializeFromProjectionMatrix_run.
  destruct (DecomposeProjectionMatrix ext projection_matrix)
    as [[K Rwc] position].
  destruct (CalibrationMatrixToIntrinsics ext K) as [[[[f sk] a] px] py].
  cbv beta iota zeta
      delta [seq check step reading ret outcome bind fst snd
             Camera.on_object Camera.on_extrinsics].
  destruct (DCHECK dcheck_is_on (image_width >? 0)%Z); try reflexivity.
  destruct (DCHECK dcheck_is_on (image_height >? 0)%Z); try reflexivity.
  destruct (Camera.mutable_extrinsics_update _ h _) as [h1| |];
    try reflexivity.
  destruct (Camera.mutable_extrinsics_update _ h1 _) as [h2| |];
    try reflexivity.
  destruct (is_zero (m00 K) || is_zero (m11 K)); reflexivity.
Qed.

(* ================================================================== *)
(** * Construction and binding *)

Lemma ctor_returns dcheck_is_on this l :
  Camera.ctor dcheck_is_on this (Some l)
  = Ret (Camera.Build
           (write (write (write (write (write (write (write
              (Camera.camera_parameters_ this)
              Camera.FOCAL_LENGTH (Some 1%R))
              Camera.ASPECT_RATIO (Some 1%R))
              Camera.SKEW (Some 0%R))
              Camera.PRINCIPAL_POINT_X (Some 0%R))
              Camera.PRINCIPAL_POINT_Y (Some 0%R))
              Camera.RADIAL_DISTORTION_1 (Some 0%R))
              Camera.RADIAL_DISTORTION_2 (Some 0%R))
           (Some l) Eigen.Identity
           (write (write (Camera.image_size_ this) 0 0%Z) 1 0%Z)).
Proof.
  rewrite ctor_body. unfold DCHECK. rewrite andb_false_r. reflexivity.
Qed.

Lemma ctor_defaults dcheck_is_on this s c :
  Camera.wf this ->
  Camera.ctor dcheck_is_on this s = Ret c ->
  default_intrinsics c /\
  Camera.GetSharedToLocalTransform c = Eigen.Identity /\
  Camera.ImageWidth c = 0%Z /\ Camera.ImageHeight c = 0%Z /\
  Camera.shared_extrinsics c = s.
Proof.
  intros [Hi Hs] H.
  destruct this as [cp se rot isz]; simpl in Hi, Hs.
  do 8 (destruct cp as [|? cp]; try discriminate Hi).
  do 3 (destruct isz as [|? isz]; try discriminate Hs).
  rewrite ctor_body in H. unfold DCHECK in H.
  destruct (dcheck_is_on && negb match s with Some _ => true | None => false end);
    simpl in H; [discriminate|].
  injection H as <-.
  repeat split; reflexivity.
Qed.

(** C5.  [Camera()] returns a camera bound to a [SharedExtrinsics] that
    [make_shared] has just allocated, at an address no camera with a valid
    pointer into the old heap holds; and both constructors leave focal
    length 1, aspect ratio 1, skew 0, principal point (0,0), radial
    distortion (0,0), the identity as local offset and image size (0,0). *)
Theorem C5_constructors_default (dcheck_is_on : bool) (this : Camera.t)
    (h : Heap) (Hwf : Camera.wf this) :
  (exists c,
      Camera.default_ctor dcheck_is_on this h
      = Ret (c, h ++ [SharedExtrinsics.ctor]) /\
      Camera.extrinsics c (h ++ [SharedExtrinsics.ctor])
      = Ret SharedExtrinsics.ctor /\
      ~ valid h (Camera.shared_extrinsics c) /\
      (forall other, valid h (Camera.shared_extrinsics other) ->
                     Camera.shared_extrinsics other <> Camera.shared_extrinsics c) /\
      default_intrinsics c /\
      Camera.GetSharedToLocalTransform c = Eigen.Identity /\
      Camera.ImageWidth c = 0%Z /\ Camera.ImageHeight c = 0%Z) /\
  (forall s c,
      Camera.ctor dcheck_is_on this s = Ret c ->
      Camera.shared_extrinsics c = s /\
      default_intrinsics c /\
      Camera.GetSharedToLocalTransform c = Eigen.Identity /\
      Camera.ImageWidth c = 0%Z /\ Camera.ImageHeight c = 0%Z).
Proof.
  split.
  - unfold Camera.default_ctor, make_shared.
    rewrite ctor_returns. simpl bind.
    eexists. split; [reflexivity|].
    destruct (@ctor_defaults dcheck_is_on this (Some (length h)) _ Hwf
                (ctor_returns dcheck_is_on this (length h)))
      as (Hd & Hr & Hw & Hh & Hp).
    assert (Hfresh : ~ valid h (Some (length h)))
      by exact (@make_shared_fresh h).
    split; [|split; [exact Hfresh|split; [|tauto]]].
    + unfold Camera.extrinsics, deref. simpl.
      rewrite nth_error_app2 by lia. now rewrite Nat.sub_diag.
    + intros other Hv Heq. simpl in Heq. rewrite Heq in Hv. contradiction.
  - intros s c H.
    destruct (@ctor_defaults _ _ _ _ Hwf H) as (Hd & Hr & Hw & Hh & Hp).
    tauto.
Qed.

Lemma C5_constructors_default_witness :
  Camera.wf Sample.storage /\
  exists c,
    Camera.default_ctor true Sample.storage [] = Ret (c, Sample.heap) /\
    ~ valid [] (Camera.shared_extrinsics c) /\
    default_intrinsics c.
Proof.
  assert (Hwf : Camera.wf Sample.storage) by (split; reflexivity).
  split; [exact Hwf|].
  destruct (@C5_constructors_default true Sample.storage [] Hwf)
    as [(c & Hc & _ & Hfresh & _ & Hd & _) _].
  exists c. split; [exact Hc | split; [exact Hfresh | exact Hd]].
Defined.

(** C6.  [SetSharedExtrinsics(s)] replaces the pointer and nothing else:
    the intrinsics block, the local offset and the image size are those of
    before. *)
Theorem C6_rebinding_frame (c : Camera.t) (s : shared_ptr) :
  Camera.shared_extrinsics (Camera.SetSharedExtrinsics c s) = s /\
  Camera.intrinsics (Camera.SetSharedExtrinsics c s) = Camera.intrinsics c /\
  Camera.GetSharedToLocalTransform (Camera.SetSharedExtrinsics c s)
  = Camera.GetSharedToLocalTransform c /\
  Camera.image_size_ (Camera.SetSharedExtrinsics c s) = Camera.image_size_ c.
Proof. repeat split. Qed.

(* ================================================================== *)
(** * Debug checks *)

(** C8, as the code has it.  In a build with glog's debug checks compiled
    in, constructing a camera from a null pointer aborts on the first
    statement, with the storage of the object as it was; and
    [InitializeFromProjectionMatrix] with a non-positive width or height
    aborts with the object and the heap as they were: the checks come
    before every write.  Under [NDEBUG] the checks are no-ops: the
    constructor returns a camera holding the null pointer. *)
Theorem C8_debug_checks_abort :
  (forall this,
      Camera.ctor_run true None this = (FatalCheck, this) /\
      Camera.ctor true this None = FatalCheck) /\
  (forall ext c h image_width image_height P,
      (image_width <= 0 \/ image_height <= 0)%Z ->
      Camera.InitializeFromProjectionMatrix_run ext true
        image_width image_height P (c, h) = (FatalCheck, (c, h)) /\
      Camera.InitializeFromProjectionMatrix ext true c h
        image_width image_height P = FatalCheck) /\
  (forall this, exists c,
      Camera.ctor false this None = Ret c /\ Camera.shared_extrinsics c = None).
Proof.
  split; [|split].
  - intros this. split; reflexivity.
  - intros ext c h w ht P Hneg.
    assert (Hrun : Camera.InitializeFromProjectionMatrix_run ext true
                     w ht P (c, h) = (FatalCheck, (c, h))).
    { unfold Camera.InitializeFromProjectionMatrix_run, seq, check, DCHECK.
      destruct (w >? 0)%Z eqn:Hw; simpl; [|reflexivity].
      destruct (ht >? 0)%Z eqn:Hh; simpl; [|reflexivity].
      apply Z.gtb_lt in Hw, Hh. lia. }
    split; [exact Hrun|].
    unfold Camera.InitializeFromProjectionMatrix. now rewrite Hrun.
  - intros this. eexists. split; reflexivity.
Qed.

Lemma C8_debug_checks_abort_witness :
  (-1 <= 0 \/ 480 <= 0)%Z /\
  Camera.InitializeFromProjectionMatrix_run Sample.collaborators true
    (-1) 480 Sample.projection_matrix (Sample.camera, Sample.heap)
  = (FatalCheck, (Sample.camera, Sample.heap)).
Proof.
  assert (H : (-1 <= 0 \/ 480 <= 0)%Z) by (left; lia).
  split; [exact H|].
  exact (proj1 (proj1 (proj2 C8_debug_checks_abort) Sample.collaborators
                  Sample.camera Sample.heap (-1)%Z 480%Z
                  Sample.projection_matrix H)).
Defined.

(** C8 as stated fails: in a build without debug checks the constructor
    returns on a null pointer, and [InitializeFromProjectionMatrix] runs to
    its end on a zero image size. *)
Lemma C8_counterexample :
  Camera.ctor false Sample.storage None <> FatalCheck /\
  exists b c h,
    Camera.InitializeFromProjectionMatrix Sample.collaborators false
      Sample.camera Sample.heap 0 0 Sample.degenerate_projection_matrix
    = Ret (b, c, h).
Proof.
  split; [discriminate|].
  rewrite InitializeFromProjectionMatrix_body. simpl.
  unfold is_zero, eqb. destruct (Req_dec_T 0 0) as [_|Hn]; [|now elim Hn].
  simpl. do 3 eexists. reflexivity.
Qed.

(* ================================================================== *)
(** * Initialisation from a projection matrix *)

Lemma is_zero_true (x : double) : is_zero x = true <-> x = Some 0%R.
Proof.
  unfold is_zero, eqb. destruct x as [a|].
  - destruct (Req_dec_T a 0) as [->|Hn]; split; intros H;
      try reflexivity; try discriminate.
    injection H as H. contradiction.
  - split; discriminate.
Qed.

Lemma is_zero_false (x : double) : is_zero x = false <-> x <> Some 0%R.
Proof.
  rewrite <- is_zero_true. destruct (is_zero x); split; intros H;
    congruence.
Qed.

Lemma valid_after_update (h : Heap) l s s' :
  nth_error h l = Some s -> nth_error (store h l s') l = Some s'.
Proof.
  intros H. unfold store. apply nth_error_write_same.
  apply nth_error_Some. congruence.
Qed.

(** C3.  For a positive image size and a camera bound to a live
    [SharedExtrinsics], [InitializeFromProjectionMatrix] returns, and it
    returns false exactly when [K(0,0)] or [K(1,1)] of the decomposed
    calibration matrix is exactly zero.  In both cases the shared block
    holds the decomposed orientation, slot by slot the angle times the
    coordinates of the axis of Eigen's angle-axis of the world-to-shared
    rotation [offset.inverse() * R], and the decomposed position.  On failure the
    intrinsics block is the one of before; on success focal length, skew,
    aspect ratio and principal point are those computed from [K], and the
    radial distortion is untouched. *)
Theorem C3_initialize_partial_failure
    (ext : Collaborators) (dcheck_is_on : bool) (c : Camera.t) (h : Heap)
    (image_width image_height : Z) (P : Matrix3x4d)
    (K Rwc : Matrix3d) (position : Vector3d) :
  (0 < image_width)%Z -> (0 < image_height)%Z ->
  Camera.wf c -> valid h (Camera.shared_extrinsics c) ->
  DecomposeProjectionMatrix ext P = (K, Rwc, position) ->
  exists b c' h' e',
    Camera.InitializeFromProjectionMatrix ext dcheck_is_on c h
      image_width image_height P = Ret (b, c', h') /\
    (b = false <-> m00 K = Some 0%R \/ m11 K = Some 0%R) /\
    Camera.extrinsics c' h' = Ret e' /\
    (let world_to_shared_aa :=
       AngleAxisd_of_matrix ext
         (Eigen.mmul (Eigen.inverse (Camera.shared_to_local_rotation c)) Rwc) in
     read3 (SharedExtrinsics.extrinsics e') SharedExtrinsics.ORIENTATION
     = V3 (Eigen.angle world_to_shared_aa * x3 (Eigen.axis world_to_shared_aa))
          (Eigen.angle world_to_shared_aa * y3 (Eigen.axis world_to_shared_aa))
          (Eigen.angle world_to_shared_aa * z3 (Eigen.axis world_to_shared_aa)))%dbl /\
    read3 (SharedExtrinsics.extrinsics e') SharedExtrinsics.POSITION = position /\
    (b = false -> Camera.intrinsics c' = Camera.intrinsics c) /\
    (b = true ->
     forall f sk a px py,
       CalibrationMatrixToIntrinsics ext K = (f, sk, a, px, py) ->
       Camera.FocalLength c' = f /\ Camera.Skew c' = sk /\
       Camera.AspectRatio c' = a /\
       Camera.PrincipalPointX c' = px /\ Camera.PrincipalPointY c' = py /\
       Camera.RadialDistortion1 c' = Camera.RadialDistortion1 c /\
       Camera.RadialDistortion2 c' = Camera.RadialDistortion2 c).
Proof.
  intros Hw Hh [Hlen _] (l & s & Hp & Hl & Hs) HD.
  rewrite InitializeFromProjectionMatrix_body. unfold DCHECK.
  replace (image_width >? 0)%Z with true by (symmetry; apply Z.gtb_lt; lia).
  replace (image_height >? 0)%Z with true by (symmetry; apply Z.gtb_lt; lia).
  rewrite andb_false_r. simpl bind. rewrite HD.
  set (c1 := Camera.image_size_set (Camera.image_size_set c 0 image_width)
                                   1 image_height).
  assert (Hp1 : Camera.shared_extrinsics c1 = Some l) by exact Hp.
  set (aa := Camera.angle_times_axis _).
  rewrite (@update_returns c1 h _ l s Hp1 Hl). simpl bind.
  set (s1 := SharedExtrinsics.Build _).
  assert (Hl1 : nth_error (store h l s1) l = Some s1)
    by (eapply valid_after_update; eassumption).
  rewrite (@update_returns c1 _ _ l s1 Hp1 Hl1). simpl bind.
  set (s2 := SharedExtrinsics.Build _).
  assert (Hl2 : nth_error (store (store h l s1) l s2) l = Some s2)
    by (eapply valid_after_update; eassumption).
  assert (Ho : read3 (SharedExtrinsics.extrinsics s2) SharedExtrinsics.ORIENTATION = aa).
  { subst s2 s1. simpl.
    rewrite read3_write3_other by (unfold SharedExtrinsics.ORIENTATION,
                                   SharedExtrinsics.POSITION; lia).
    apply read3_write3_same. rewrite Hs. unfold SharedExtrinsics.ORIENTATION,
      SharedExtrinsics.kExtrinsicsSize. lia. }
  assert (Hpos : read3 (SharedExtrinsics.extrinsics s2) SharedExtrinsics.POSITION
                 = position).
  { subst s2 s1. simpl. apply read3_write3_same.
    rewrite write3_length, Hs.
    unfold SharedExtrinsics.POSITION, SharedExtrinsics.kExtrinsicsSize. lia. }
  destruct (is_zero (m00 K) || is_zero (m11 K)) eqn:Hz.
  - exists false, c1, (store (store h l s1) l s2), s2.
    split; [reflexivity|]. split.
    { split; [intros _|reflexivity].
      apply orb_true_iff in Hz. now rewrite <- !is_zero_true. }
    split. { unfold Camera.extrinsics, deref. now rewrite Hp1, Hl2. }
    split; [exact Ho|]. split; [exact Hpos|].
    split; [reflexivity|discriminate].
  - destruct (CalibrationMatrixToIntrinsics ext K)
      as [[[[f0 sk0] a0] px0] py0] eqn:HK.
    eexists true, _, (store (store h l s1) l s2), s2.
    split; [reflexivity|]. split.
    { split; [discriminate|]. intros Hz'.
      rewrite <- !is_zero_true in Hz'. apply orb_true_iff in Hz'. congruence. }
    split. { unfold Camera.extrinsics, deref. simpl. now rewrite Hp, Hl2. }
    split; [exact Ho|]. split; [exact Hpos|].
    split; [discriminate|]. intros _ f sk a px py E. injection E as <- <- <- <- <-.
    destruct c as [cp se rot isz]. simpl in Hlen.
    do 8 (destruct cp as [|? cp]; try discriminate Hlen).
    repeat split; reflexivity.
Qed.

Lemma C3_initialize_partial_failure_witness :
  (0 < 640)%Z /\ (0 < 480)%Z /\
  Camera.wf Sample.camera /\
  valid Sample.heap (Camera.shared_extrinsics Sample.camera) /\
  exists c' h' e',
    Camera.InitializeFromProjectionMatrix Sample.collaborators true
      Sample.camera Sample.heap 640 480 Sample.degenerate_projection_matrix
    = Ret (false, c', h') /\
    Camera.extrinsics c' h' = Ret e' /\
    read3 (SharedExtrinsics.extrinsics e') SharedExtrinsics.POSITION
    = V3 (Some 0%R) (Some 0%R) (Some 0%R) /\
    Camera.intrinsics c' = Camera.intrinsics Sample.camera.
Proof.
  assert (Hw : (0 < 640)%Z) by lia.
  assert (Hh : (0 < 480)%Z) by lia.
  assert (Hc : Camera.wf Sample.camera) by (split; reflexivity).
  assert (Hv : valid Sample.heap (Camera.shared_extrinsics Sample.camera)).
  { exists 0%nat, SharedExtrinsics.ctor. repeat split. }
  repeat (split; [assumption|]).
  destruct (@C3_initialize_partial_failure Sample.collaborators true
              Sample.camera Sample.heap 640 480
              Sample.degenerate_projection_matrix _ _ _ Hw Hh Hc Hv eq_refl)
    as (b & c' & h' & e' & Hr & Hb & He & _ & Hpos & Hfail & _).
  assert (b = false) as -> by (apply Hb; left; reflexivity).
  exists c', h', e'. repeat split; auto.
Defined.

(* ================================================================== *)
(** * Frame composition *)

Lemma orthogonal_finite (m : Matrix3d) :
  Eigen.mmul (Eigen.transpose m) m = Eigen.Identity ->
  exists a b c d e f g h i, m = mat a b c d e f g h i.
Proof.
  intros H. destruct m as [a b c d e f g h i].
  unfold Eigen.mmul, Eigen.transpose, Eigen.Identity in H. simpl in H.
  injection H as H00 H01 H02 H10 H11 H12 H20 H21 H22.
  destruct a as [a|]; [|discriminate H00].
  destruct d as [d|]; [|discriminate H00].
  destruct g as [g|]; [|discriminate H00].
  destruct b as [b|]; [|discriminate H11].
  destruct e as [e|]; [|discriminate H11].
  destruct h as [h|]; [|discriminate H11].
  destruct c as [c|]; [|discriminate H22].
  destruct f as [f|]; [|discriminate H22].
  destruct i as [i|]; [|discriminate H22].
  now exists a, b, c, d, e, f, g, h, i.
Qed.

(** [m * (m.inverse() * r) = r] as soon as the determinant of [m] is not
    zero. *)
Lemma inverse_cancel a b c d e f g h i a' b' c' d' e' f' g' h' i' :
  Eigen.determinant (mat a b c d e f g h i) <> Some 0%R ->
  Eigen.mmul (mat a b c d e f g h i)
    (Eigen.mmul (Eigen.inverse (mat a b c d e f g h i))
                (mat a' b' c' d' e' f' g' h' i'))
  = mat a' b' c' d' e' f' g' h' i'.
Proof.
  intros Hdet.
  unfold Eigen.inverse, Eigen.determinant, Eigen.mmul, mat in *. simpl in *.
  match goal with
  | |- context [Req_dec_T ?x 0] => destruct (Req_dec_T x 0) as [E|E]
  end.
  - exfalso. apply Hdet. now rewrite E.
  - simpl. f_equal; apply f_equal; field; exact E.
Qed.

Lemma rotation_inverse_cancel (m r : Matrix3d) :
  is_rotation m -> is_rotation r ->
  Eigen.mmul m (Eigen.mmul (Eigen.inverse m) r) = r.
Proof.
  intros [Hm Hd] [Hr _].
  destruct (orthogonal_finite _ Hm) as (a & b & c & d & e & f & g & h & i & ->).
  destruct (orthogonal_finite _ Hr) as (a' & b' & c' & d' & e' & f' & g' & h' & i' & ->).
  apply inverse_cancel. rewrite Hd. intros E. injection E as E. lra.
Qed.


Lemma quarter_turn_rotation : is_rotation Sample.quarter_turn.
Proof.
  split.
  - unfold Sample.quarter_turn, Eigen.mmul, Eigen.transpose, Eigen.Identity.
    simpl. f_equal; apply f_equal; lra.
  - unfold Sample.quarter_turn, Eigen.determinant. simpl. apply f_equal. lra.
Qed.

Lemma sample_heap_valid c :
  Camera.shared_extrinsics c = Some 0%nat ->
  valid Sample.heap (Camera.shared_extrinsics c).
Proof.
  intros ->. exists 0%nat, SharedExtrinsics.ctor. repeat split.
Qed.


(* ================================================================== *)
(** * Cameras of one rig *)

Lemma GetOrientation_unfold ext c h l s :
  Camera.shared_extrinsics c = Some l -> nth_error h l = Some s ->
  Camera.GetOrientationAsRotationMatrix ext c h
  = Ret (Eigen.mmul (Camera.shared_to_local_rotation c)
           (AngleAxisToRotationMatrix ext
              (read3 (SharedExtrinsics.extrinsics s) SharedExtrinsics.ORIENTATION))).
Proof.
  intros Hp Hl.
  unfold Camera.GetOrientationAsRotationMatrix, Camera.extrinsics, deref.
  now rewrite Hp, Hl.
Qed.

(** C4.  Two cameras hold the same pointer to a live [SharedExtrinsics].
    A position written into the shared block through the raw mutable
    extrinsics accessor is the position both cameras return afterwards.
    After one camera is given another local offset [m] it still holds the
    pointer and its orientation is [m] times the shared rotation, while the
    orientation of the other camera is what it was: its own offset times
    the shared rotation. *)
Theorem C4_shared_rig (ext : Collaborators) (c1 c2 : Camera.t) (h : Heap) :
  Camera.shared_extrinsics c1 = Camera.shared_extrinsics c2 ->
  valid h (Camera.shared_extrinsics c1) ->
  (forall position,
     exists h',
       Camera.mutable_extrinsics_update c1 h
         (fun a => write3 a SharedExtrinsics.POSITION position) = Ret h' /\
       Camera.GetPosition c1 h' = Ret position /\
       Camera.GetPosition c2 h' = Ret position) /\
  (forall m,
     exists e,
       let c1' := Camera.SetSharedToLocalTransform c1 m in
       let shared_rotation :=
         AngleAxisToRotationMatrix ext
           (read3 (SharedExtrinsics.extrinsics e) SharedExtrinsics.ORIENTATION) in
       Camera.shared_extrinsics c1' = Camera.shared_extrinsics c2 /\
       Camera.extrinsics c2 h = Ret e /\
       Camera.GetOrientationAsRotationMatrix ext c1' h
       = Ret (Eigen.mmul m shared_rotation) /\
       Camera.GetOrientationAsRotationMatrix ext c2 h
       = Ret (Eigen.mmul (Camera.shared_to_local_rotation c2) shared_rotation)).
Proof.
  intros Hsame (l & s & Hp & Hl & Hs).
  assert (Hp2 : Camera.shared_extrinsics c2 = Some l) by congruence.
  split.
  - intros position.
    destruct (@extrinsics_after_update c1 c1 h
                (fun a => write3 a SharedExtrinsics.POSITION position)
                l s Hp Hp Hl) as (h' & Hset & Hget1 & _).
    exists h'. split; [exact Hset|].
    assert (Hget2 : Camera.extrinsics c2 h'
                    = Ret (SharedExtrinsics.Build
                             (write3 (SharedExtrinsics.parameters s)
                                     SharedExtrinsics.POSITION position))).
    { unfold Camera.extrinsics in *. now rewrite Hp2, <- Hp. }
    unfold Camera.GetPosition. rewrite Hget1, Hget2. simpl bind.
    assert (Hread :
      read3 (write3 (SharedExtrinsics.parameters s)
                    SharedExtrinsics.POSITION position)
            SharedExtrinsics.POSITION = position).
    { apply read3_write3_same. rewrite Hs.
      unfold SharedExtrinsics.POSITION, SharedExtrinsics.kExtrinsicsSize. lia. }
    unfold SharedExtrinsics.extrinsics. simpl SharedExtrinsics.parameters.
    rewrite Hread. split; reflexivity.
  - intros m. exists s. cbv zeta.
    split; [exact Hsame|]. split.
    { unfold Camera.extrinsics, deref. now rewrite Hp2, Hl. }
    split.
    + now apply GetOrientation_unfold with (l := l).
    + now apply GetOrientation_unfold with (l := l).
Qed.

Lemma C4_shared_rig_witness :
  Camera.shared_extrinsics Sample.camera = Camera.shared_extrinsics Sample.camera2 /\
  valid Sample.heap (Camera.shared_extrinsics Sample.camera) /\
  Camera.shared_to_local_rotation Sample.camera
  <> Camera.shared_to_local_rotation Sample.camera2 /\
  exists h',
    Camera.mutable_extrinsics_update Sample.camera Sample.heap
      (fun a => write3 a SharedExtrinsics.POSITION (vec3 1 2 3)) = Ret h' /\
    Camera.GetPosition Sample.camera h' = Ret (vec3 1 2 3) /\
    Camera.GetPosition Sample.camera2 h' = Ret (vec3 1 2 3).
Proof.
  assert (Hs : Camera.shared_extrinsics Sample.camera
               = Camera.shared_extrinsics Sample.camera2) by reflexivity.
  assert (Hv : valid Sample.heap (Camera.shared_extrinsics Sample.camera))
    by (apply sample_heap_valid; reflexivity).
  split; [exact Hs|]. split; [exact Hv|]. split.
  { simpl. unfold Eigen.Identity, Sample.quarter_turn. intros E.
    injection E as E _. lra. }
  exact (proj1 (@C4_shared_rig Sample.collaborators Sample.camera
                  Sample.camera2 Sample.heap Hs Hv) (vec3 1 2 3)).
Defined.

(* ================================================================== *)
(** * Doubles in binary64 *)

Section Binary64Classes.
Local Open Scope float_scope.

(** Classification through the specification. *)
Lemma Prim2SF_zero : Prim2SF 0 = S754_zero false.
Proof. reflexivity. Qed.

Lemma Prim2SF_infinity : Prim2SF infinity = S754_infinity false.
Proof. reflexivity. Qed.

Lemma is_finite_spec (x : float) :
  is_finite x = match Prim2SF x with
                | S754_zero _ | S754_finite _ _ _ => true
                | _ => false
                end.
Proof.
  unfold is_finite, is_nan, is_infinity.
  rewrite !eqb_spec, abs_spec, Prim2SF_infinity.
  unfold SFeqb.
  destruct (Prim2SF x) as [s|s| |s m e]; simpl; try reflexivity.
  - now destruct s.
  - rewrite Z.compare_refl, Pos.compare_cont_refl. now destruct s.
Qed.

Lemma is_nan_spec (x : float) :
  is_nan x = match Prim2SF x with S754_nan => true | _ => false end.
Proof.
  unfold is_nan. rewrite eqb_spec. unfold SFeqb.
  destruct (Prim2SF x) as [s|s| |s m e]; simpl; try reflexivity.
  - now destruct s.
  - rewrite Z.compare_refl, Pos.compare_cont_refl. now destruct s.
Qed.

Lemma eqb_zero_spec (x : float) :
  (x =? 0) = match Prim2SF x with S754_zero _ => true | _ => false end.
Proof.
  rewrite eqb_spec, Prim2SF_zero. unfold SFeqb.
  destruct (Prim2SF x) as [s|s| |s m e]; simpl; try reflexivity;
    now destruct s.
Qed.

Lemma zero_or_nan_spec (x : float) :
  Binary64.zero_or_nan x = match Prim2SF x with
                  | S754_zero _ | S754_nan => true
                  | _ => false
                  end.
Proof.
  unfold Binary64.zero_or_nan. rewrite eqb_zero_spec, is_nan_spec.
  now destruct (Prim2SF x).
Qed.

(** [0 * a] and [f * 0] are zero or, against an infinity or a NaN, NaN. *)
Lemma mul_zero_l (f a : float) :
  (f =? 0) = true -> Binary64.zero_or_nan (f * a) = true.
Proof.
  rewrite eqb_zero_spec, zero_or_nan_spec, mul_spec.
  unfold SF64mul, SFmul.
  destruct (Prim2SF f) as [s|s| |s m e]; try discriminate.
  intros _. now destruct (Prim2SF a).
Qed.

Lemma mul_zero_r (f a : float) :
  (a =? 0) = true -> Binary64.zero_or_nan (f * a) = true.
Proof.
  rewrite eqb_zero_spec, zero_or_nan_spec, mul_spec.
  unfold SF64mul, SFmul.
  destruct (Prim2SF a) as [s|s| |s m e]; try discriminate.
  intros _. now destruct (Prim2SF f).
Qed.

(** A quotient by zero or by a NaN is an infinity or a NaN. *)
Lemma div_by_zero_not_finite (x y : float) :
  Binary64.zero_or_nan y = true -> is_finite (x / y) = false.
Proof.
  rewrite zero_or_nan_spec, is_finite_spec, div_spec.
  unfold SF64div, SFdiv.
  destruct (Prim2SF y) as [s|s| |s m e]; try discriminate;
    intros _; now destruct (Prim2SF x).
Qed.

(** Infinities and NaNs go through a subtraction, a product and the
    numerator of a quotient. *)
Lemma sub_not_finite_r (x y : float) :
  is_finite y = false -> is_finite (x - y) = false.
Proof.
  rewrite !is_finite_spec, sub_spec. unfold SF64sub, SFsub.
  destruct (Prim2SF y) as [s|s| |s m e]; try discriminate; intros _.
  - destruct (Prim2SF x) as [sx|sx| |sx mx ex]; try reflexivity.
    now destruct sx, s.
  - now destruct (Prim2SF x).
Qed.

Lemma mul_not_finite_l (x y : float) :
  is_finite x = false -> is_finite (x * y) = false.
Proof.
  rewrite !is_finite_spec, mul_spec. unfold SF64mul, SFmul.
  destruct (Prim2SF x) as [s|s| |s m e]; try discriminate; intros _;
    now destruct (Prim2SF y).
Qed.

Lemma div_not_finite_l (x y : float) :
  is_finite x = false -> is_finite (x / y) = false.
Proof.
  rewrite !is_finite_spec, div_spec. unfold SF64div, SFdiv.
  destruct (Prim2SF x) as [s|s| |s m e]; try discriminate; intros _;
    now destruct (Prim2SF y).
Qed.

End Binary64Classes.

(* ================================================================== *)
(** * The square root of a double greater than zero *)

Section SquareRoot.
Local Open Scope Z_scope.

Lemma digits2_pos_gt (p : positive) : Zpos p < 2 ^ Zpos (digits2_pos p).
Proof.
  induction p as [p IH|p IH|]; simpl digits2_pos.
  - rewrite Pos2Z.inj_succ, Z.pow_succ_r by lia. lia.
  - rewrite Pos2Z.inj_succ, Z.pow_succ_r by lia. lia.
  - reflexivity.
Qed.

Lemma digits2_pos_le (p : positive) (k : Z) :
  0 <= k -> Zpos p < 2 ^ k -> Zpos (digits2_pos p) <= k.
Proof.
  revert k. induction p as [p IH|p IH|]; intros k Hk H; simpl digits2_pos.
  - assert (k <> 0) by (intros ->; simpl in H; lia).
    replace k with (Z.succ (k - 1)) in H by lia.
    rewrite Z.pow_succ_r in H by lia.
    rewrite Pos2Z.inj_succ. specialize (IH (k - 1)). lia.
  - assert (k <> 0) by (intros ->; simpl in H; lia).
    replace k with (Z.succ (k - 1)) in H by lia.
    rewrite Z.pow_succ_r in H by lia.
    rewrite Pos2Z.inj_succ. specialize (IH (k - 1)). lia.
  - assert (k <> 0) by (intros ->; simpl in H; lia). lia.
Qed.

Lemma digits2_pos_ge (p : positive) : 2 ^ (Zpos (digits2_pos p) - 1) <= Zpos p.
Proof.
  induction p as [p IH|p IH|]; simpl digits2_pos.
  - rewrite Pos2Z.inj_succ. replace (Z.succ (Z.pos (digits2_pos p)) - 1) with (Z.succ (Z.pos (digits2_pos p) - 1)) by lia.
    rewrite Z.pow_succ_r by lia. lia.
  - rewrite Pos2Z.inj_succ. replace (Z.succ (Z.pos (digits2_pos p)) - 1) with (Z.succ (Z.pos (digits2_pos p) - 1)) by lia.
    rewrite Z.pow_succ_r by lia. lia.
  - reflexivity.
Qed.

(** No shift: a mantissa of at most [prec] digits at an exponent not
    below [emin] is kept as it is. *)
Lemma shr_fexp_fits (q : positive) (e : Z) (l : location) :
  Zpos (digits2_pos q) <= 53 -> -1074 <= e ->
  shr_fexp prec emax (Zpos q) e l = (shr_record_of_loc (Zpos q) l, e).
Proof.
  intros Hq He. unfold shr_fexp, shr, fexp, SpecFloat.emin.
  change prec with 53. change emax with 1024. simpl Zdigits2.
  destruct (Z.max (Z.pos (digits2_pos q) + e - 53) (3 - 1024 - 53) - e) eqn:E;
    try reflexivity.
  lia.
Qed.

Lemma shr_m_of_loc (m : Z) (l : location) : shr_m (shr_record_of_loc m l) = m.
Proof. destruct l as [|[]]; reflexivity. Qed.

(** The second rounding step shifts by one bit at most, and never a
    positive mantissa down to zero. *)
Lemma shr_fexp_exact_positive (q : positive) (e : Z) :
  Zpos (digits2_pos q) <= 54 -> -1074 <= e ->
  exists q' e', shr_fexp prec emax (Zpos q) e loc_Exact = (q', e') /\
                exists p, shr_m q' = Zpos p.
Proof.
  intros Hq He. unfold shr_fexp, shr, fexp, SpecFloat.emin.
  change prec with 53. change emax with 1024. simpl Zdigits2.
  destruct (Z.max (Z.pos (digits2_pos q) + e - 53) (3 - 1024 - 53) - e) eqn:E.
  - do 2 eexists. split; [reflexivity|]. simpl. now exists q.
  - assert (p = 1%positive) as -> by lia.
    assert (Hd : Zpos (digits2_pos q) = 54) by lia.
    destruct q as [q|q|]; [| |simpl in Hd; discriminate];
      do 2 eexists; (split; [reflexivity|]); simpl; now eexists.
  - do 2 eexists. split; [reflexivity|]. simpl. now exists q.
Qed.

Lemma round_nearest_even_positive (q : positive) (l : location) :
  exists p, round_nearest_even (Zpos q) l = Zpos p /\ Zpos p <= Zpos q + 1.
Proof.
  destruct l as [|[]]; simpl.
  - exists q. lia.
  - destruct q; simpl; eexists; split; try reflexivity; lia.
  - exists q. lia.
  - eexists. split; [reflexivity|]. lia.
Qed.

Lemma binary_round_aux_positive (q : positive) (e : Z) (l : location) :
  Zpos q < 2 ^ 53 -> -1074 <= e ->
  match binary_round_aux prec emax false (Zpos q) e l with
  | S754_finite _ _ _ | S754_infinity _ => True
  | _ => False
  end.
Proof.
  intros Hq He. unfold binary_round_aux.
  rewrite shr_fexp_fits; [|apply digits2_pos_le; lia|exact He].
  rewrite shr_m_of_loc.
  destruct (round_nearest_even_positive q
              (loc_of_shr_record (shr_record_of_loc (Zpos q) l)))
    as (p & -> & Hp).
  destruct (shr_fexp_exact_positive p e) as (q' & e' & -> & p' & ->);
    [apply digits2_pos_le; [lia|]|exact He|].
  - change (2 ^ 54) with (2 * 2 ^ 53). lia.
  - now destruct (e' <=? emax - prec).
Qed.

(** The square root of a positive binary64 number: the integer root the
    specification takes has at most 53 bits, at an exponent in range. *)
Lemma SFsqrt_core_fits (m : positive) (e : Z) :
  bounded prec emax m e = true ->
  exists q e' l,
    SFsqrt_core_binary prec emax (Zpos m) e = (Zpos q, e', l) /\
    Zpos q < 2 ^ 53 /\ -1074 <= e'.
Proof.
  intros Hb. unfold bounded, canonical_mantissa in Hb.
  apply andb_prop in Hb as [Hc He].
  apply Z.eqb_eq in Hc. apply Z.leb_le in He.
  unfold fexp, SpecFloat.emin in Hc.
  change prec with 53 in *. change emax with 1024 in *.
  pose proof (digits2_pos_gt m) as Hm.
  set (d := Zpos (digits2_pos m)) in *.
  assert (Hd : 1 <= d <= 53) by (subst d; lia).
  assert (Hemin : -1074 <= e) by lia.
  unfold SFsqrt_core_binary, fexp, SpecFloat.emin.
  change prec with 53. change emax with 1024.
  simpl Zdigits2. fold d.
  rewrite !Z.div2_div.
  set (e' := Z.min (Z.max ((d + e + 1) / 2 - 53) (3 - 1024 - 53)) (e / 2)).
  assert (He' : -1074 <= e')
    by (subst e'; Z.div_mod_to_equations; lia).
  assert (Hs : 0 <= e - 2 * e')
    by (subst e'; Z.div_mod_to_equations; lia).
  assert (Hds : d + (e - 2 * e') <= 106)
    by (subst e'; Z.div_mod_to_equations; lia).
  set (s := e - 2 * e') in *.
  set (m' := match s with
             | 0 => Zpos m
             | Zpos _ => Z.shiftl (Zpos m) s
             | Zneg _ => 0
             end).
  assert (Hm' : m' = Zpos m * 2 ^ s).
  { subst m'. destruct s as [|p|p] eqn:Es.
    - simpl. lia.
    - now rewrite Z.shiftl_mul_pow2 by lia.
    - lia. }
  assert (Hpow : 0 < 2 ^ s) by (apply Z.pow_pos_nonneg; lia).
  assert (Hm'1 : 1 <= m') by nia.
  assert (Hm'2 : m' < 2 ^ 106).
  { rewrite Hm'.
    apply Z.lt_le_trans with (2 ^ d * 2 ^ s); [nia|].
    rewrite <- Z.pow_add_r by lia.
    apply Z.pow_le_mono_r; lia. }
  pose proof (Z.sqrtrem_spec m') as Hsq.
  destruct (Z.sqrtrem m') as [q r].
  specialize (Hsq ltac:(lia)). destruct Hsq as [Hq [Hr0 Hr1]].
  assert (Hq1 : 1 <= q) by nia.
  assert (Hq2 : q < 2 ^ 53).
  { destruct (Z_lt_le_dec q (2 ^ 53)) as [|Hge]; [assumption|].
    exfalso. change (2 ^ 106) with (2 ^ 53 * 2 ^ 53) in Hm'2. nia. }
  destruct q as [|q|q]; try lia.
  do 3 eexists. split; [reflexivity|]. split; assumption.
Qed.

Lemma SFsqrt_positive (m : positive) (e : Z) :
  bounded prec emax m e = true ->
  match SFsqrt prec emax (S754_finite false m e) with
  | S754_finite _ _ _ | S754_infinity _ => True
  | _ => False
  end.
Proof.
  intros Hb. unfold SFsqrt.
  destruct (SFsqrt_core_fits m e Hb) as (q & e' & l & -> & Hq & He').
  now apply binary_round_aux_positive.
Qed.

Local Open Scope float_scope.

(** The square root of a double greater than zero is not zero. *)
Lemma sqrt_positive_nonzero (z : float) :
  (0 <? z) = true -> (PrimFloat.sqrt z =? 0) = false.
Proof.
  rewrite ltb_spec, Prim2SF_zero, eqb_zero_spec, sqrt_spec.
  pose proof (Prim2SF_valid z) as Hv.
  unfold SFltb, SF64sqrt.
  destruct (Prim2SF z) as [s|s| |s m e]; simpl SFcompare.
  - discriminate.
  - destruct s; [discriminate|]. reflexivity.
  - discriminate.
  - destruct s; [discriminate|]. intros _.
    simpl in Hv. pose proof (SFsqrt_positive m e Hv) as H.
    now destruct (SFsqrt prec emax (S754_finite false m e)).
Qed.

End SquareRoot.

(* ================================================================== *)
(** * The calibration divisors *)

Lemma reachable64_wf (c : Binary64.Camera.t) :
  Binary64.reachable c -> Binary64.Camera.wf c.
Proof.
  intros H. induction H as
    [d this s c [Hl Hs] Hc | c v _ IH | c v _ IH | c v _ IH | c u v _ IH
     | c u v _ IH | c w ht _ IH | c s _ IH | c m _ IH | c i v _ _ IH].
  - unfold Binary64.Camera.ctor in Hc.
    destruct (DCHECK d _); try discriminate Hc. cbn [bind] in Hc.
    injection Hc as <-. split; cbn; now rewrite !write_length.
  - destruct IH as [Hl Hs]. split; cbn; now rewrite ?write_length.
  - destruct IH as [Hl Hs]. split; cbn; now rewrite ?write_length.
  - destruct IH as [Hl Hs]. split; cbn; now rewrite ?write_length.
  - destruct IH as [Hl Hs]. split; cbn; now rewrite ?write_length.
  - destruct IH as [Hl Hs]. split; cbn; now rewrite ?write_length.
  - destruct IH as [Hl Hs]. split; cbn; now rewrite ?write_length.
  - exact IH.
  - exact IH.
  - destruct IH as [Hl Hs]. split; cbn; now rewrite ?write_length.
Qed.

(** A constructed camera has focal length and aspect ratio one. *)
Lemma ctor64_divisors d this s c :
  Binary64.Camera.wf this ->
  Binary64.Camera.ctor d this s = Ret c ->
  Binary64.Camera.FocalLength c = 1%float /\
  Binary64.Camera.AspectRatio c = 1%float.
Proof.
  intros [Hl _] Hc. unfold Binary64.Camera.ctor in Hc.
  destruct (DCHECK d _); try discriminate Hc. cbn [bind] in Hc.
  injection Hc as <-.
  destruct this as [cp se rot isz]. simpl in Hl.
  do 8 (destruct cp as [|? cp]; try discriminate Hl).
  split; reflexivity.
Qed.

Section Binary64Camera.
Local Open Scope float_scope.

(** C10, as the code has it.  [PixelToUnitDepthRay] undoes the
    calibration by dividing by [FocalLength() * AspectRatio()] and by
    [FocalLength()], as computed in double, and tests neither.  A camera
    as constructed has both divisors equal to one.  [SetFocalLength],
    [SetAspectRatio] and a write through [mutable_intrinsics()] store any
    double, zero too, and give a reachable camera.  When the focal length
    or the aspect ratio is zero, their product is zero or a NaN; and
    whenever that product is zero or a NaN, both coordinates of the
    normalized point that [PixelToUnitDepthRay] hands to
    [RadialUndistortPoint] are infinities or NaNs, for every pixel.  In
    the other states, where the product is a nonzero number, so are both
    divisors, the focal length and the aspect ratio.  A nonzero focal
    length and aspect ratio do not make the product nonzero: there is a
    reachable camera with both finite and nonzero whose product is
    zero. *)
Theorem C10_divisors_unguarded (ext : Binary64.Collaborators) :
  (forall d this s c,
     Binary64.Camera.wf this -> Binary64.Camera.ctor d this s = Ret c ->
     Binary64.Camera.FocalLength c = 1 /\
     Binary64.Camera.FocalLength c * Binary64.Camera.AspectRatio c = 1) /\
  (forall c v,
     Binary64.reachable c ->
     Binary64.reachable (Binary64.Camera.SetFocalLength c v) /\
     Binary64.Camera.FocalLength (Binary64.Camera.SetFocalLength c v) = v /\
     Binary64.reachable (Binary64.Camera.SetAspectRatio c v) /\
     Binary64.Camera.AspectRatio (Binary64.Camera.SetAspectRatio c v) = v /\
     Binary64.Camera.FocalLength
       (Binary64.Camera.mutable_intrinsics_set c
          Binary64.Camera.FOCAL_LENGTH v) = v /\
     Binary64.Camera.AspectRatio
       (Binary64.Camera.mutable_intrinsics_set c
          Binary64.Camera.ASPECT_RATIO v) = v) /\
  (forall c,
     (Binary64.Camera.FocalLength c =? 0)
     || (Binary64.Camera.AspectRatio c =? 0) = true ->
     Binary64.zero_or_nan
       (Binary64.Camera.FocalLength c * Binary64.Camera.AspectRatio c) = true) /\
  (forall c h pixel,
     Binary64.zero_or_nan
       (Binary64.Camera.FocalLength c * Binary64.Camera.AspectRatio c) = true ->
     let y_normalized :=
       (Binary64.y2 pixel - Binary64.Camera.PrincipalPointY c)
       / (Binary64.Camera.FocalLength c * Binary64.Camera.AspectRatio c) in
     let x_normalized :=
       (Binary64.x2 pixel - Binary64.Camera.PrincipalPointX c
        - y_normalized * Binary64.Camera.Skew c)
       / Binary64.Camera.FocalLength c in
     is_finite x_normalized = false /\
     is_finite y_normalized = false /\
     Binary64.Camera.PixelToUnitDepthRay ext c h pixel
     = (rotation <- Binary64.Camera.GetOrientationAsRotationMatrix ext c h ;;
        Ret (Binary64.Eigen.mvmul (Binary64.Eigen.transpose rotation)
               (Binary64.Eigen.homogeneous
                  (Binary64.RadialUndistortPoint ext
                     (Binary64.V2 x_normalized y_normalized)
                     (Binary64.Camera.RadialDistortion1 c)
                     (Binary64.Camera.RadialDistortion2 c)))))) /\
  (forall c,
     Binary64.zero_or_nan
       (Binary64.Camera.FocalLength c * Binary64.Camera.AspectRatio c) = false ->
     (Binary64.Camera.FocalLength c * Binary64.Camera.AspectRatio c =? 0) = false /\
     (Binary64.Camera.FocalLength c =? 0) = false /\
     (Binary64.Camera.AspectRatio c =? 0) = false) /\
  (exists c,
     Binary64.reachable c /\
     is_finite (Binary64.Camera.FocalLength c) = true /\
     is_finite (Binary64.Camera.AspectRatio c) = true /\
     (Binary64.Camera.FocalLength c =? 0) = false /\
     (Binary64.Camera.AspectRatio c =? 0) = false /\
     (Binary64.Camera.FocalLength c * Binary64.Camera.AspectRatio c =? 0) = true).
Proof.
  split; [|split; [|split; [|split; [|split]]]].
  - intros d this s c Hwf Hc.
    destruct (ctor64_divisors d this s c Hwf Hc) as [-> ->].
    split; reflexivity.
  - intros c v Hr. destruct (reachable64_wf c Hr) as [Hl _].
    split; [now constructor|]. split.
    { unfold Binary64.Camera.FocalLength, Binary64.Camera.SetFocalLength,
        Binary64.read. cbn.
      apply nth_write_same. rewrite Hl. unfold Binary64.Camera.FOCAL_LENGTH,
        Binary64.Camera.kIntrinsicsSize. lia. }
    split; [now constructor|]. split.
    { unfold Binary64.Camera.AspectRatio, Binary64.Camera.SetAspectRatio,
        Binary64.read. cbn.
      apply nth_write_same. rewrite Hl. unfold Binary64.Camera.ASPECT_RATIO,
        Binary64.Camera.kIntrinsicsSize. lia. }
    split.
    { unfold Binary64.Camera.FocalLength, Binary64.read. cbn.
      apply nth_write_same. rewrite Hl. unfold Binary64.Camera.FOCAL_LENGTH,
        Binary64.Camera.kIntrinsicsSize. lia. }
    { unfold Binary64.Camera.AspectRatio, Binary64.read. cbn.
      apply nth_write_same. rewrite Hl. unfold Binary64.Camera.ASPECT_RATIO,
        Binary64.Camera.kIntrinsicsSize. lia. }
  - intros c Hz. apply orb_true_iff in Hz as [Hf|Ha];
      [now apply mul_zero_l|now apply mul_zero_r].
  - intros c h pixel Hd y_normalized x_normalized.
    assert (Hy : is_finite y_normalized = false)
      by (now apply div_by_zero_not_finite).
    split; [|split; [exact Hy|reflexivity]].
    apply div_not_finite_l, sub_not_finite_r, mul_not_finite_l, Hy.
  - intros c Hnz. split.
    { unfold Binary64.zero_or_nan in Hnz. now apply orb_false_iff in Hnz. }
    destruct (Binary64.Camera.FocalLength c =? 0) eqn:Hf.
    { now rewrite (mul_zero_l _ (Binary64.Camera.AspectRatio c) Hf) in Hnz. }
    destruct (Binary64.Camera.AspectRatio c =? 0) eqn:Ha.
    { now rewrite (mul_zero_r (Binary64.Camera.FocalLength c) _ Ha) in Hnz. }
    split; reflexivity.
  - exists Binary64.Sample.tiny_camera. split.
    { do 2 constructor.
      apply (Binary64.reach_ctor false Binary64.Sample.storage (Some 0%nat));
        [split; reflexivity|reflexivity]. }
    repeat split; reflexivity.
Qed.

Lemma C10_divisors_unguarded_witness :
  (Binary64.Camera.wf Binary64.Sample.storage /\
   Binary64.Camera.ctor true Binary64.Sample.storage (Some 0%nat)
   = Ret Binary64.Sample.camera /\
   Binary64.Camera.FocalLength Binary64.Sample.camera
   * Binary64.Camera.AspectRatio Binary64.Sample.camera = 1) /\
  (Binary64.reachable Binary64.Sample.camera /\
   Binary64.Camera.FocalLength
     (Binary64.Camera.SetFocalLength Binary64.Sample.camera 0) = 0) /\
  ((Binary64.Camera.FocalLength Binary64.Sample.flat_camera =? 0)
   || (Binary64.Camera.AspectRatio Binary64.Sample.flat_camera =? 0) = true /\
   Binary64.zero_or_nan
     (Binary64.Camera.FocalLength Binary64.Sample.flat_camera
      * Binary64.Camera.AspectRatio Binary64.Sample.flat_camera) = true) /\
  (Binary64.zero_or_nan
     (Binary64.Camera.FocalLength Binary64.Sample.tiny_camera
      * Binary64.Camera.AspectRatio Binary64.Sample.tiny_camera) = true /\
   is_finite
     ((Binary64.y2 Binary64.Sample.pixel
       - Binary64.Camera.PrincipalPointY Binary64.Sample.tiny_camera)
      / (Binary64.Camera.FocalLength Binary64.Sample.tiny_camera
         * Binary64.Camera.AspectRatio Binary64.Sample.tiny_camera)) = false) /\
  (Binary64.zero_or_nan
     (Binary64.Camera.FocalLength Binary64.Sample.camera
      * Binary64.Camera.AspectRatio Binary64.Sample.camera) = false /\
   (Binary64.Camera.FocalLength Binary64.Sample.camera =? 0) = false).
Proof.
  pose proof (C10_divisors_unguarded Binary64.Sample.collaborators)
    as (Hctor & Hset & Hzero & Hdiv & Hpos & _).
  assert (Hwf : Binary64.Camera.wf Binary64.Sample.storage)
    by (split; reflexivity).
  assert (Hc : Binary64.Camera.ctor true Binary64.Sample.storage (Some 0%nat)
               = Ret Binary64.Sample.camera) by reflexivity.
  assert (Hr : Binary64.reachable Binary64.Sample.camera)
    by (exact (Binary64.reach_ctor true Binary64.Sample.storage
                 (Some 0%nat) Binary64.Sample.camera Hwf Hc)).
  assert (Hf : (Binary64.Camera.FocalLength Binary64.Sample.flat_camera =? 0)
               || (Binary64.Camera.AspectRatio Binary64.Sample.flat_camera =? 0)
               = true) by reflexivity.
  assert (Hz : Binary64.zero_or_nan
                 (Binary64.Camera.FocalLength Binary64.Sample.tiny_camera
                  * Binary64.Camera.AspectRatio Binary64.Sample.tiny_camera)
               = true) by reflexivity.
  assert (Hn : Binary64.zero_or_nan
                 (Binary64.Camera.FocalLength Binary64.Sample.camera
                  * Binary64.Camera.AspectRatio Binary64.Sample.camera)
               = false) by reflexivity.
  split; [|split; [|split; [|split]]].
  - split; [exact Hwf|]. split; [exact Hc|].
    exact (proj2 (Hctor true Binary64.Sample.storage (Some 0%nat)
                    Binary64.Sample.camera Hwf Hc)).
  - split; [exact Hr|].
    exact (proj1 (proj2 (Hset Binary64.Sample.camera 0%float Hr))).
  - split; [exact Hf|]. exact (Hzero Binary64.Sample.flat_camera Hf).
  - split; [exact Hz|].
    exact (proj1 (proj2 (Hdiv Binary64.Sample.tiny_camera Binary64.Sample.heap
                           Binary64.Sample.pixel Hz))).
  - split; [exact Hn|].
    exact (proj1 (proj2 (Hpos Binary64.Sample.camera Hn))).
Defined.

(** C10 as stated fails: [SetFocalLength(0.0)] on a constructed camera
    gives a reachable camera whose two divisors are zero, and
    [PixelToUnitDepthRay] returns a ray of NaNs for the pixel [(1, 2)]. *)
Lemma C10_counterexample :
  Binary64.reachable Binary64.Sample.flat_camera /\
  (Binary64.Camera.FocalLength Binary64.Sample.flat_camera =? 0) = true /\
  (Binary64.Camera.FocalLength Binary64.Sample.flat_camera
   * Binary64.Camera.AspectRatio Binary64.Sample.flat_camera =? 0) = true /\
  Binary64.Camera.PixelToUnitDepthRay Binary64.Sample.collaborators
    Binary64.Sample.flat_camera Binary64.Sample.heap Binary64.Sample.pixel
  = Ret (Binary64.V3 nan nan nan).
Proof.
  split.
  { constructor.
    apply (Binary64.reach_ctor false Binary64.Sample.storage (Some 0%nat));
      [split; reflexivity|reflexivity]. }
  repeat split; reflexivity.
Qed.

(* ================================================================== *)
(** * The normalisation of an angle-axis vector, in binary64 *)

Lemma read3_write3_same64 a off v :
  (off + 2 < length a)%nat ->
  Binary64.read3 (Binary64.write3 a off v) off = v.
Proof.
  intros H. unfold Binary64.read3, Binary64.write3, Binary64.read.
  destruct v as [x y z]. cbn [Binary64.x3 Binary64.y3 Binary64.z3]. f_equal.
  - rewrite !nth_write_other by lia. apply nth_write_same. lia.
  - rewrite nth_write_other by lia. apply nth_write_same.
    rewrite write_length. lia.
  - apply nth_write_same. rewrite !write_length. lia.
Qed.



End Binary64Camera.

(* ================================================================== *)
(** * Reachable cameras, returned values, orthogonal columns *)

Lemma sample_camera_reachable : reachable Sample.camera.
Proof.
  apply reach_ctor with (dcheck_is_on := true) (this := Sample.storage)
                        (s := Some 0%nat).
  - split; reflexivity.
  - reflexivity.
Qed.

Lemma Ret_inj {A} (a b : A) : Ret a = Ret b -> a = b.
Proof. intros H. now injection H. Qed.

Lemma orthogonal_columns (r00 r01 r02 r10 r11 r12 r20 r21 r22 : R) :
  Eigen.mmul (Eigen.transpose (mat r00 r01 r02 r10 r11 r12 r20 r21 r22))
             (mat r00 r01 r02 r10 r11 r12 r20 r21 r22) = Eigen.Identity ->
  ((r00 * r00 + r10 * r10 + r20 * r20 = 1 /\
    r00 * r01 + r10 * r11 + r20 * r21 = 0 /\
    r00 * r02 + r10 * r12 + r20 * r22 = 0) /\
   (r01 * r00 + r11 * r10 + r21 * r20 = 0 /\
    r01 * r01 + r11 * r11 + r21 * r21 = 1 /\
    r01 * r02 + r11 * r12 + r21 * r22 = 0) /\
   (r02 * r00 + r12 * r10 + r22 * r20 = 0 /\
    r02 * r01 + r12 * r11 + r22 * r21 = 0 /\
    r02 * r02 + r12 * r12 + r22 * r22 = 1))%R.
Proof.
  intros H. unfold Eigen.mmul, Eigen.transpose, Eigen.Identity, mat in H.
  simpl in H.
  injection H as H00 H01 H02 H10 H11 H12 H20 H21 H22.
  repeat split; assumption.
Qed.

(* ================================================================== *)
(** * Persisted layout *)

Lemma persisted_length_SharedExtrinsics (s : SharedExtrinsics.t) :
  length (persisted (SharedExtrinsics_serialize s))
  = S (length (SharedExtrinsics.parameters s)).
Proof.
  unfold persisted, SharedExtrinsics_serialize. simpl.
  rewrite length_app, length_map. simpl. lia.
Qed.

(** C7 on the code.  A camera hands the archive its intrinsics block, its
    pointer to the [SharedExtrinsics], the nine coefficients of the local
    offset column by column and the image size, in this order.  A
    [SharedExtrinsics] hands it the array [parameters] and then the
    integer [sizeof(double) * kExtrinsicsSize = 48] as a second value: its
    persisted form is the block followed by that integer, never the block
    alone.  For the default block this is six zeros and 48. *)
Theorem C7_persisted_layout :
  (forall c,
     persisted (Camera_serialize c)
     = map f64 (firstn 7 (Camera.camera_parameters_ c))
       ++ [ptr (Camera.shared_extrinsics c)]
       ++ map f64 (Eigen.data (Camera.shared_to_local_rotation c))
       ++ map i32 (firstn 2 (Camera.image_size_ c))) /\
  (forall s,
     persisted (SharedExtrinsics_serialize s)
     = map f64 (SharedExtrinsics.parameters s) ++ [u64 48]) /\
  (forall s,
     persisted (SharedExtrinsics_serialize s)
     <> SharedExtrinsics_persisted_spec s) /\
  persisted (SharedExtrinsics_serialize SharedExtrinsics.ctor)
  = [f64 (Some 0%R); f64 (Some 0%R); f64 (Some 0%R);
     f64 (Some 0%R); f64 (Some 0%R); f64 (Some 0%R); u64 48].
Proof.
  split; [|split; [|split]].
  - intros c. unfold persisted, Camera_serialize. simpl.
    now rewrite app_nil_r.
  - intros s. reflexivity.
  - intros s E. apply (f_equal (@length datum)) in E.
    rewrite persisted_length_SharedExtrinsics in E.
    unfold SharedExtrinsics_persisted_spec in E.
    rewrite length_map, length_firstn in E. lia.
  - reflexivity.
Qed.

(* ================================================================== *)
(** * Writes to a shared block: what they change and what they keep *)

Lemma deref_store_other (h : Heap) l l' s' :
  l <> l' -> deref (store h l s') (Some l') = deref h (Some l').
Proof.
  intros H. unfold deref, store. now rewrite nth_error_write_other.
Qed.

Lemma update_inv (c : Camera.t) (h h' : Heap) f :
  Camera.mutable_extrinsics_update c h f = Ret h' ->
  exists l s,
    Camera.shared_extrinsics c = Some l /\ nth_error h l = Some s /\
    h' = store h l (SharedExtrinsics.Build (f (SharedExtrinsics.parameters s))).
Proof.
  unfold Camera.mutable_extrinsics_update.
  destruct (Camera.shared_extrinsics c) as [l|]; [|discriminate].
  destruct (nth_error h l) as [s|] eqn:E; [|discriminate].
  intros H. apply Ret_inj in H. now exists l, s.
Qed.

(** A write through one camera is seen by the cameras that hold the same
    pointer and by no other. *)
Lemma update_extrinsics (c c' : Camera.t) (h h' : Heap) f :
  Camera.mutable_extrinsics_update c h f = Ret h' ->
  (Camera.shared_extrinsics c' = Camera.shared_extrinsics c ->
   exists s, Camera.extrinsics c h = Ret s /\
     Camera.extrinsics c' h'
     = Ret (SharedExtrinsics.Build (f (SharedExtrinsics.parameters s)))) /\
  (Camera.shared_extrinsics c' <> Camera.shared_extrinsics c ->
   Camera.extrinsics c' h' = Camera.extrinsics c' h).
Proof.
  intros H. destruct (update_inv _ _ _ _ H) as (l & s & Hp & Hl & ->).
  split.
  - intros E. exists s. unfold Camera.extrinsics. rewrite E, Hp. split.
    + unfold deref. now rewrite Hl.
    + eapply deref_store_same; eassumption.
  - intros E. unfold Camera.extrinsics.
    destruct (Camera.shared_extrinsics c') as [l'|]; [|reflexivity].
    apply deref_store_other. congruence.
Qed.

Lemma read3_write3_position_orientation a v :
  read3 (write3 a SharedExtrinsics.POSITION v) SharedExtrinsics.ORIENTATION
  = read3 a SharedExtrinsics.ORIENTATION.
Proof.
  apply read3_write3_other.
  unfold SharedExtrinsics.POSITION, SharedExtrinsics.ORIENTATION. lia.
Qed.

Lemma read3_write3_orientation_position a v :
  read3 (write3 a SharedExtrinsics.ORIENTATION v) SharedExtrinsics.POSITION
  = read3 a SharedExtrinsics.POSITION.
Proof.
  apply read3_write3_other.
  unfold SharedExtrinsics.POSITION, SharedExtrinsics.ORIENTATION. lia.
Qed.

(** X1.  [SetPosition(p)] on a camera bound to a live block makes
    [GetPosition()] return [p] for this camera and for every camera that
    holds the same pointer, and leaves their orientation, as rotation
    matrix and as angle-axis, and the ray of every pixel as they were. *)
Theorem X1_SetPosition_roundtrip_frame
    (ext : Collaborators) (c c' : Camera.t) (h : Heap) (position : Vector3d) :
  valid h (Camera.shared_extrinsics c) ->
  Camera.shared_extrinsics c' = Camera.shared_extrinsics c ->
  exists h',
    Camera.SetPosition c h position = Ret h' /\
    Camera.GetPosition c h' = Ret position /\
    Camera.GetPosition c' h' = Ret position /\
    Camera.GetOrientationAsRotationMatrix ext c' h'
    = Camera.GetOrientationAsRotationMatrix ext c' h /\
    Camera.GetOrientationAsAngleAxis ext c' h'
    = Camera.GetOrientationAsAngleAxis ext c' h /\
    (forall x, Camera.PixelToUnitDepthRay ext c' h' x
               = Camera.PixelToUnitDepthRay ext c' h x).
Proof.
  intros (l & s & Hp & Hl & Hs) Hc'.
  unfold Camera.SetPosition.
  rewrite (update_returns c h _ l s Hp Hl). eexists. split; [reflexivity|].
  assert (Hpos : forall k, Camera.shared_extrinsics k = Some l ->
            Camera.GetPosition k
              (store h l (SharedExtrinsics.Build
                 (write3 (SharedExtrinsics.parameters s)
                         SharedExtrinsics.POSITION position)))
            = Ret position).
  { intros k Hk. unfold Camera.GetPosition, Camera.extrinsics. rewrite Hk.
    rewrite (deref_store_same h l s _ Hl). cbn [bind].
    unfold SharedExtrinsics.extrinsics. cbn [SharedExtrinsics.parameters].
    rewrite read3_write3_same; [reflexivity|]. rewrite Hs.
    unfold SharedExtrinsics.POSITION, SharedExtrinsics.kExtrinsicsSize. lia. }
  assert (Hrot : Camera.GetOrientationAsRotationMatrix ext c'
              (store h l (SharedExtrinsics.Build
                 (write3 (SharedExtrinsics.parameters s)
                         SharedExtrinsics.POSITION position)))
            = Camera.GetOrientationAsRotationMatrix ext c' h).
  { unfold Camera.GetOrientationAsRotationMatrix, Camera.extrinsics.
    rewrite Hc', Hp. rewrite (deref_store_same h l s _ Hl).
    unfold deref. rewrite Hl. cbn [bind].
    unfold SharedExtrinsics.extrinsics. cbn [SharedExtrinsics.parameters].
    now rewrite read3_write3_position_orientation. }
  split; [now apply Hpos|]. split; [apply Hpos; congruence|].
  split; [exact Hrot|].
  split; [unfold Camera.GetOrientationAsAngleAxis; now rewrite Hrot|].
  intros x. unfold Camera.PixelToUnitDepthRay. now rewrite Hrot.
Qed.

Lemma X1_SetPosition_roundtrip_frame_witness :
  valid Sample.heap (Camera.shared_extrinsics Sample.camera) /\
  Camera.shared_extrinsics Sample.camera2
  = Camera.shared_extrinsics Sample.camera /\
  exists h',
    Camera.SetPosition Sample.camera Sample.heap (vec3 1 2 3) = Ret h' /\
    Camera.GetPosition Sample.camera2 h' = Ret (vec3 1 2 3) /\
    Camera.GetOrientationAsRotationMatrix Sample.collaborators Sample.camera2 h'
    = Camera.GetOrientationAsRotationMatrix Sample.collaborators
        Sample.camera2 Sample.heap.
Proof.
  assert (Hv : valid Sample.heap (Camera.shared_extrinsics Sample.camera))
    by (apply sample_heap_valid; reflexivity).
  split; [exact Hv|]. split; [reflexivity|].
  destruct (X1_SetPosition_roundtrip_frame Sample.collaborators Sample.camera
              Sample.camera2 Sample.heap (vec3 1 2 3) Hv eq_refl)
    as (h' & Hset & _ & Hget & Hrot & _).
  exists h'. split; [exact Hset|]. split; [exact Hget|exact Hrot].
Defined.

(** X2.  Neither orientation setter touches the position: after
    [SetOrientationFromRotationMatrix] or [SetOrientationFromAngleAxis]
    through one camera, [GetPosition()] of every camera holding the same
    pointer returns what it did.  After [SetOrientationFromAngleAxis(v)]
    such a camera's rotation is its own offset times the rotation matrix of
    [angle * axis] of the angle-axis Eigen composes from the caller's
    offset, [|v|] and [v.normalized()]. *)
Theorem X2_orientation_setters_keep_position
    (ext : Collaborators) (c c' : Camera.t) (h : Heap)
    (R : Matrix3d) (v : Vector3d) :
  valid h (Camera.shared_extrinsics c) ->
  Camera.shared_extrinsics c' = Camera.shared_extrinsics c ->
  (exists h',
     Camera.SetOrientationFromRotationMatrix ext c h R = Ret h' /\
     Camera.GetPosition c' h' = Camera.GetPosition c' h) /\
  (exists h',
     Camera.SetOrientationFromAngleAxis ext c h v = Ret h' /\
     Camera.GetPosition c' h' = Camera.GetPosition c' h /\
     let world_to_shared_aa :=
       AngleAxisd_of_inverse_times ext
         (Camera.shared_to_local_rotation c)
         (Eigen.AngleAxis (Eigen.norm v) (Vector3d_normalized ext v)) in
     Camera.GetOrientationAsRotationMatrix ext c' h'
     = Ret (Eigen.mmul (Camera.shared_to_local_rotation c')
              (AngleAxisToRotationMatrix ext
                 (V3 (Eigen.angle world_to_shared_aa
                      * x3 (Eigen.axis world_to_shared_aa))
                     (Eigen.angle world_to_shared_aa
                      * y3 (Eigen.axis world_to_shared_aa))
                     (Eigen.angle world_to_shared_aa
                      * z3 (Eigen.axis world_to_shared_aa)))%dbl))).
Proof.
  intros (l & s & Hp & Hl & Hs) Hc'.
  assert (Hc'l : Camera.shared_extrinsics c' = Some l) by congruence.
  assert (Hkeep : forall u,
    Camera.GetPosition c'
      (store h l (SharedExtrinsics.Build
         (write3 (SharedExtrinsics.parameters s)
                 SharedExtrinsics.ORIENTATION u)))
    = Camera.GetPosition c' h).
  { intros u. unfold Camera.GetPosition, Camera.extrinsics. rewrite Hc'l.
    rewrite (deref_store_same h l s _ Hl). unfold deref. rewrite Hl.
    cbn [bind]. unfold SharedExtrinsics.extrinsics.
    cbn [SharedExtrinsics.parameters].
    now rewrite read3_write3_orientation_position. }
  split.
  - unfold Camera.SetOrientationFromRotationMatrix.
    rewrite (update_returns c h _ l s Hp Hl). eexists.
    split; [reflexivity|]. apply Hkeep.
  - unfold Camera.SetOrientationFromAngleAxis.
    rewrite (update_returns c h _ l s Hp Hl). eexists.
    split; [reflexivity|]. split; [apply Hkeep|].
    unfold Camera.GetOrientationAsRotationMatrix, Camera.extrinsics.
    rewrite Hc'l, (deref_store_same h l s _ Hl). cbn [bind].
    unfold SharedExtrinsics.extrinsics. cbn [SharedExtrinsics.parameters].
    rewrite read3_write3_same; [reflexivity|]. rewrite Hs.
    unfold SharedExtrinsics.ORIENTATION, SharedExtrinsics.kExtrinsicsSize. lia.
Qed.

Lemma X2_orientation_setters_keep_position_witness :
  valid Sample.heap (Camera.shared_extrinsics Sample.camera2) /\
  Camera.shared_extrinsics Sample.camera
  = Camera.shared_extrinsics Sample.camera2 /\
  exists h',
    Camera.SetOrientationFromAngleAxis Sample.collaborators Sample.camera2
      Sample.heap (vec3 3 0 4) = Ret h' /\
    Camera.GetPosition Sample.camera h'
    = Camera.GetPosition Sample.camera Sample.heap.
Proof.
  assert (Hv : valid Sample.heap (Camera.shared_extrinsics Sample.camera2))
    by (apply sample_heap_valid; reflexivity).
  split; [exact Hv|]. split; [reflexivity|].
  destruct (proj2 (X2_orientation_setters_keep_position Sample.collaborators
              Sample.camera2 Sample.camera Sample.heap Sample.quarter_turn
              (vec3 3 0 4) Hv eq_refl))
    as (h' & Hset & Hget & _).
  exists h'. split; [exact Hset|exact Hget].
Defined.

(* ================================================================== *)
(** * The algebra of array writes *)

Lemma nth_error_write {A} (l : list A) i j v :
  nth_error (write l i v) j
  = if Nat.eqb j i then option_map (fun _ => v) (nth_error l j)
    else nth_error l j.
Proof.
  revert i j. induction l as [|x t IH]; intros i j.
  - simpl. destruct j; destruct (Nat.eqb _ i); reflexivity.
  - destruct i as [|i], j as [|j]; simpl; try reflexivity. apply IH.
Qed.

Lemma write_write_same {A} (l : list A) i a b :
  write (write l i a) i b = write l i b.
Proof. write_ext_with @nth_error_write. Qed.

Lemma write_write_comm {A} (l : list A) i j a b :
  i <> j -> write (write l i a) j b = write (write l j b) i a.
Proof. intros H. write_ext_with @nth_error_write. Qed.

Lemma write3_write3_same a off u v :
  write3 (write3 a off u) off v = write3 a off v.
Proof. write_ext_with @nth_error_write. Qed.

Lemma write3_write3_comm a u v :
  write3 (write3 a SharedExtrinsics.POSITION u) SharedExtrinsics.ORIENTATION v
  = write3 (write3 a SharedExtrinsics.ORIENTATION v) SharedExtrinsics.POSITION u.
Proof.
  unfold SharedExtrinsics.POSITION, SharedExtrinsics.ORIENTATION.
  write_ext_with @nth_error_write.
Qed.

(* ================================================================== *)
(** * Initialisation from a projection matrix, in full *)

Lemma store_store (h : Heap) l s1 s2 : store (store h l s1) l s2 = store h l s2.
Proof. unfold store. apply write_write_same. Qed.

Lemma DCHECK_inv d cond : DCHECK d cond = Ret tt \/ (DCHECK d cond = FatalCheck /\ d = true /\ cond = false).
Proof. unfold DCHECK. destruct d, cond; simpl; auto. Qed.

Lemma Initialize_inv ext d c h w ht P b c' h' :
  Camera.InitializeFromProjectionMatrix ext d c h w ht P = Ret (b, c', h') ->
  exists K Rwc pos l s,
    DecomposeProjectionMatrix ext P = (K, Rwc, pos) /\
    Camera.shared_extrinsics c = Some l /\ nth_error h l = Some s /\
    h' = store h l (SharedExtrinsics.Build
           (write3 (write3 (SharedExtrinsics.parameters s)
                     SharedExtrinsics.ORIENTATION
                     (Camera.angle_times_axis
                        (AngleAxisd_of_matrix ext
                           (Eigen.mmul (Eigen.inverse (Camera.shared_to_local_rotation c)) Rwc))))
                   SharedExtrinsics.POSITION pos)) /\
    (d = true -> (0 < w /\ 0 < ht)%Z) /\
    ((is_zero (m00 K) || is_zero (m11 K) = true /\ b = false /\
      c' = Camera.image_size_set (Camera.image_size_set c 0 w) 1 ht) \/
     (is_zero (m00 K) || is_zero (m11 K) = false /\ b = true /\
      exists f sk a px py,
        CalibrationMatrixToIntrinsics ext K = (f, sk, a, px, py) /\
        c' = Camera.mutable_intrinsics_set (Camera.mutable_intrinsics_set
               (Camera.mutable_intrinsics_set (Camera.mutable_intrinsics_set
                 (Camera.mutable_intrinsics_set
                    (Camera.image_size_set (Camera.image_size_set c 0 w) 1 ht)
                    Camera.FOCAL_LENGTH f) Camera.SKEW sk)
                 Camera.ASPECT_RATIO a) Camera.PRINCIPAL_POINT_X px)
               Camera.PRINCIPAL_POINT_Y py)).
Proof.
  rewrite InitializeFromProjectionMatrix_body. intros H.
  assert (Hd : d = true -> (0 < w /\ 0 < ht)%Z).
  { intros ->. unfold DCHECK in H. simpl in H.
    destruct (w >? 0)%Z eqn:Hw; [|discriminate H].
    destruct (ht >? 0)%Z eqn:Hh; [|discriminate H].
    apply Z.gtb_lt in Hw, Hh. lia. }
  destruct (DCHECK_inv d (w >? 0)%Z) as [E|[E _]]; rewrite E in H;
    [|discriminate H].
  destruct (DCHECK_inv d (ht >? 0)%Z) as [E'|[E' _]]; rewrite E' in H;
    [|discriminate H].
  cbn [bind] in H.
  destruct (DecomposeProjectionMatrix ext P) as [[K Rwc] pos] eqn:HD.
  set (c1 := Camera.image_size_set (Camera.image_size_set c 0 w) 1 ht) in *.
  change (Camera.shared_to_local_rotation c1)
    with (Camera.shared_to_local_rotation c) in H.
  set (aa := Camera.angle_times_axis _) in *.
  destruct (Camera.mutable_extrinsics_update c1 h _) as [h1| |] eqn:U1;
    try discriminate H.
  cbn [bind] in H.
  destruct (Camera.mutable_extrinsics_update c1 h1 _) as [h2| |] eqn:U2;
    try discriminate H.
  cbn [bind] in H.
  destruct (update_inv _ _ _ _ U1) as (l & s & Hp & Hl & ->).
  destruct (update_inv _ _ _ _ U2) as (l2 & s2 & Hp2 & Hl2 & ->).
  assert (l2 = l) as -> by congruence.
  rewrite (valid_after_update h l s _ Hl) in Hl2. injection Hl2 as <-.
  rewrite store_store in H. cbn [SharedExtrinsics.parameters] in H.
  exists K, Rwc, pos, l, s.
  split; [reflexivity|]. split; [exact Hp|]. split; [exact Hl|].
  destruct (is_zero (m00 K) || is_zero (m11 K)) eqn:Hz.
  - apply Ret_inj in H. injection H as <- <- <-.
    split; [reflexivity|]. split; [exact Hd|]. left. auto.
  - destruct (CalibrationMatrixToIntrinsics ext K)
      as [[[[f sk] a] px] py] eqn:HK.
    apply Ret_inj in H. injection H as <- <- <-.
    split; [reflexivity|]. split; [exact Hd|]. right.
    split; [reflexivity|]. split; [reflexivity|].
    now exists f, sk, a, px, py.
Qed.

Lemma Initialize_returns ext d c h w ht P K Rwc pos l s :
  (d = true -> (0 < w /\ 0 < ht)%Z) ->
  DecomposeProjectionMatrix ext P = (K, Rwc, pos) ->
  Camera.shared_extrinsics c = Some l -> nth_error h l = Some s ->
  Camera.InitializeFromProjectionMatrix ext d c h w ht P
  = let c1 := Camera.image_size_set (Camera.image_size_set c 0 w) 1 ht in
    let h' := store h l (SharedExtrinsics.Build
           (write3 (write3 (SharedExtrinsics.parameters s)
                     SharedExtrinsics.ORIENTATION
                     (Camera.angle_times_axis
                        (AngleAxisd_of_matrix ext
                           (Eigen.mmul (Eigen.inverse (Camera.shared_to_local_rotation c)) Rwc))))
                   SharedExtrinsics.POSITION pos)) in
    if is_zero (m00 K) || is_zero (m11 K) then Ret (false, c1, h')
    else
      let '(f, sk, a, px, py) := CalibrationMatrixToIntrinsics ext K in
      Ret (true,
           Camera.mutable_intrinsics_set (Camera.mutable_intrinsics_set
               (Camera.mutable_intrinsics_set (Camera.mutable_intrinsics_set
                 (Camera.mutable_intrinsics_set c1
                    Camera.FOCAL_LENGTH f) Camera.SKEW sk)
                 Camera.ASPECT_RATIO a) Camera.PRINCIPAL_POINT_X px)
               Camera.PRINCIPAL_POINT_Y py,
           h').
Proof.
  intros Hd HD Hp Hl. rewrite InitializeFromProjectionMatrix_body.
  assert (Hc1 : DCHECK d (w >? 0)%Z = Ret tt).
  { destruct (DCHECK_inv d (w >? 0)%Z) as [E|(_ & -> & E)]; [exact E|].
    destruct (Hd eq_refl) as [Hw _]. apply Z.gtb_lt in Hw.
    rewrite Z.gtb_ltb in E |- *. rewrite Z.gtb_ltb in Hw. congruence. }
  assert (Hc2 : DCHECK d (ht >? 0)%Z = Ret tt).
  { destruct (DCHECK_inv d (ht >? 0)%Z) as [E|(_ & -> & E)]; [exact E|].
    destruct (Hd eq_refl) as [_ Hh]. apply Z.gtb_lt in Hh.
    rewrite Z.gtb_ltb in E |- *. rewrite Z.gtb_ltb in Hh. congruence. }
  rewrite Hc1, Hc2. cbn [bind]. rewrite HD.
  set (c1 := Camera.image_size_set (Camera.image_size_set c 0 w) 1 ht).
  assert (Hp1 : Camera.shared_extrinsics c1 = Some l) by exact Hp.
  rewrite (update_returns c1 h _ l s Hp1 Hl). cbn [bind].
  rewrite (update_returns c1 _ _ l _ Hp1 (valid_after_update h l s _ Hl)).
  cbn [bind]. rewrite store_store. reflexivity.
Qed.

(** X3.  Whenever [InitializeFromProjectionMatrix] returns, with true or
    with false, the camera has the given width and height as image size,
    the pointer, the local offset and both radial distortion coefficients
    it had, and arrays of the declared sizes; the heap has as many blocks
    as before, and the block of every camera bound to another pointer is
    untouched.  With debug checks compiled in, the stored width and height
    are positive. *)
Theorem X3_Initialize_frame
    (ext : Collaborators) (d : bool) (c c' : Camera.t) (h h' : Heap)
    (w ht : Z) (P : Matrix3x4d) (b : bool) :
  Camera.wf c ->
  Camera.InitializeFromProjectionMatrix ext d c h w ht P = Ret (b, c', h') ->
  Camera.ImageWidth c' = w /\ Camera.ImageHeight c' = ht /\
  Camera.shared_extrinsics c' = Camera.shared_extrinsics c /\
  Camera.GetSharedToLocalTransform c' = Camera.GetSharedToLocalTransform c /\
  Camera.RadialDistortion1 c' = Camera.RadialDistortion1 c /\
  Camera.RadialDistortion2 c' = Camera.RadialDistortion2 c /\
  Camera.wf c' /\
  length h' = length h /\
  (forall other,
     Camera.shared_extrinsics other <> Camera.shared_extrinsics c ->
     Camera.extrinsics other h' = Camera.extrinsics other h) /\
  (d = true -> (0 < Camera.ImageWidth c' /\ 0 < Camera.ImageHeight c')%Z).
Proof.
  intros [Hlen Hsz] H.
  destruct (Initialize_inv _ _ _ _ _ _ _ _ _ _ H)
    as (K & Rwc & pos & l & s & HD & Hp & Hl & -> & Hpos & Hcases).
  assert (Hheap : length (store h l (SharedExtrinsics.Build
            (write3 (write3 (SharedExtrinsics.parameters s)
               SharedExtrinsics.ORIENTATION
               (Camera.angle_times_axis
                  (AngleAxisd_of_matrix ext
                     (Eigen.mmul (Eigen.inverse (Camera.shared_to_local_rotation c)) Rwc))))
               SharedExtrinsics.POSITION pos))) = length h)
    by (unfold store; apply write_length).
  assert (Hother : forall other,
     Camera.shared_extrinsics other <> Camera.shared_extrinsics c ->
     Camera.extrinsics other (store h l (SharedExtrinsics.Build
            (write3 (write3 (SharedExtrinsics.parameters s)
               SharedExtrinsics.ORIENTATION
               (Camera.angle_times_axis
                  (AngleAxisd_of_matrix ext
                     (Eigen.mmul (Eigen.inverse (Camera.shared_to_local_rotation c)) Rwc))))
               SharedExtrinsics.POSITION pos)))
     = Camera.extrinsics other h).
  { intros other Hne. unfold Camera.extrinsics.
    destruct (Camera.shared_extrinsics other) as [l'|]; [|reflexivity].
    apply deref_store_other. congruence. }
  destruct c as [cp se rot isz]. cbn in Hlen, Hsz.
  do 8 (destruct cp as [|? cp]; try discriminate Hlen).
  do 3 (destruct isz as [|? isz]; try discriminate Hsz).
  destruct Hcases as [(_ & _ & ->)|(_ & _ & f & sk & a & px & py & _ & ->)];
    (repeat split; try reflexivity; try exact Hheap; try exact Hother;
     match goal with Hd : d = true |- _ => destruct (Hpos Hd); assumption end).
Qed.

Lemma sample_initialize_fails :
  exists c' h',
    Camera.InitializeFromProjectionMatrix Sample.collaborators true
      Sample.camera Sample.heap 640 480 Sample.degenerate_projection_matrix
    = Ret (false, c', h').
Proof.
  rewrite InitializeFromProjectionMatrix_body. simpl.
  unfold is_zero, eqb. destruct (Req_dec_T 0 0) as [_|Hn]; [|now elim Hn].
  simpl. do 2 eexists. reflexivity.
Qed.

Lemma sample_initialize_succeeds :
  exists c' h',
    Camera.InitializeFromProjectionMatrix Sample.collaborators true
      Sample.camera Sample.heap 640 480 Sample.projection_matrix
    = Ret (true, c', h').
Proof.
  rewrite InitializeFromProjectionMatrix_body. simpl.
  unfold is_zero, eqb. repeat dcase. do 2 eexists. reflexivity.
Qed.

Lemma X3_Initialize_frame_witness :
  Camera.wf Sample.camera /\
  exists c' h',
    Camera.InitializeFromProjectionMatrix Sample.collaborators true
      Sample.camera Sample.heap 640 480 Sample.degenerate_projection_matrix
    = Ret (false, c', h') /\
    Camera.ImageWidth c' = 640%Z /\ Camera.ImageHeight c' = 480%Z.
Proof.
  assert (Hwf : Camera.wf Sample.camera) by (split; reflexivity).
  split; [exact Hwf|].
  destruct sample_initialize_fails as (c' & h' & H).
  exists c', h'. split; [exact H|].
  destruct (X3_Initialize_frame Sample.collaborators true Sample.camera c'
              Sample.heap h' 640 480 Sample.degenerate_projection_matrix
              false Hwf H) as (Hw & Hh & _).
  split; [exact Hw|exact Hh].
Defined.

Lemma camera_ext (c1 c2 : Camera.t) :
  Camera.camera_parameters_ c1 = Camera.camera_parameters_ c2 ->
  Camera.shared_extrinsics c1 = Camera.shared_extrinsics c2 ->
  Camera.shared_to_local_rotation c1 = Camera.shared_to_local_rotation c2 ->
  Camera.image_size_ c1 = Camera.image_size_ c2 ->
  c1 = c2.
Proof. destruct c1, c2. cbn. now intros -> -> -> ->. Qed.

(** X4.  [InitializeFromProjectionMatrix] is idempotent: called again
    with the same arguments on the camera and heap it has left, it returns
    the same flag and leaves the same camera and heap. *)
Theorem X4_Initialize_idempotent
    (ext : Collaborators) (d : bool) (c c' : Camera.t) (h h' : Heap)
    (w ht : Z) (P : Matrix3x4d) (b : bool) :
  Camera.InitializeFromProjectionMatrix ext d c h w ht P = Ret (b, c', h') ->
  Camera.InitializeFromProjectionMatrix ext d c' h' w ht P = Ret (b, c', h').
Proof.
  intros H.
  destruct (Initialize_inv _ _ _ _ _ _ _ _ _ _ H)
    as (K & Rwc & pos & l & s & HD & Hp & Hl & -> & Hd & Hcases).
  set (aa := Camera.angle_times_axis
               (AngleAxisd_of_matrix ext
                  (Eigen.mmul (Eigen.inverse (Camera.shared_to_local_rotation c)) Rwc))) in *.
  set (s2 := SharedExtrinsics.Build
               (write3 (write3 (SharedExtrinsics.parameters s)
                          SharedExtrinsics.ORIENTATION aa)
                       SharedExtrinsics.POSITION pos)).
  assert (Hl2 : nth_error (store h l s2) l = Some s2)
    by (eapply valid_after_update; eassumption).
  assert (Hs2 : SharedExtrinsics.Build
                  (write3 (write3 (SharedExtrinsics.parameters s2)
                             SharedExtrinsics.ORIENTATION aa)
                          SharedExtrinsics.POSITION pos) = s2).
  { unfold s2. cbn [SharedExtrinsics.parameters]. f_equal.
    rewrite <- (write3_write3_comm _ pos aa), write3_write3_same.
    rewrite <- (write3_write3_comm _ pos aa), write3_write3_same.
    reflexivity. }
  assert (Hp' : Camera.shared_extrinsics c' = Some l /\
                Camera.shared_to_local_rotation c' = Camera.shared_to_local_rotation c).
  { destruct Hcases as [(_ & _ & ->)|(_ & _ & f & sk & a & px & py & _ & ->)];
      split; assumption || reflexivity. }
  destruct Hp' as [Hp' Hrot].
  rewrite (Initialize_returns ext d c' (store h l s2) w ht P K Rwc pos l s2
             Hd HD Hp' Hl2).
  cbv zeta. rewrite Hrot. fold aa. rewrite Hs2, store_store.
  destruct Hcases as [(Hz & -> & ->)|(Hz & -> & f & sk & a & px & py & HK & ->)];
    rewrite Hz.
  - f_equal. f_equal. f_equal.
    apply camera_ext; cbn -[write]; try reflexivity.
    write_ext_with @nth_error_write.
  - rewrite HK. f_equal. f_equal. f_equal.
    apply camera_ext; cbn -[write]; try reflexivity.
    + unfold Camera.FOCAL_LENGTH, Camera.SKEW, Camera.ASPECT_RATIO,
        Camera.PRINCIPAL_POINT_X, Camera.PRINCIPAL_POINT_Y.
      write_ext_with @nth_error_write.
    + write_ext_with @nth_error_write.
Qed.

Lemma X4_Initialize_idempotent_witness :
  exists c' h',
    Camera.InitializeFromProjectionMatrix Sample.collaborators true
      Sample.camera Sample.heap 640 480 Sample.projection_matrix
    = Ret (true, c', h') /\
    Camera.InitializeFromProjectionMatrix Sample.collaborators true
      c' h' 640 480 Sample.projection_matrix
    = Ret (true, c', h').
Proof.
  destruct sample_initialize_succeeds as (c' & h' & H).
  exists c', h'. split; [exact H|].
  exact (X4_Initialize_idempotent Sample.collaborators true Sample.camera c'
           Sample.heap h' 640 480 Sample.projection_matrix true H).
Defined.

(* ================================================================== *)
(** * Intrinsics and image size *)

(** X5.  The raw intrinsics block of a camera is, in this order, focal
    length, aspect ratio, skew, principal point x and y, radial distortion
    1 and 2, and each setter replaces its own slots of the block and no
    other. *)
Theorem X5_intrinsics_layout (c : Camera.t) :
  Camera.wf c ->
  Camera.intrinsics c
  = [Camera.FocalLength c; Camera.AspectRatio c; Camera.Skew c;
     Camera.PrincipalPointX c; Camera.PrincipalPointY c;
     Camera.RadialDistortion1 c; Camera.RadialDistortion2 c] /\
  (forall v,
     Camera.intrinsics (Camera.SetFocalLength c v)
     = [v; Camera.AspectRatio c; Camera.Skew c;
        Camera.PrincipalPointX c; Camera.PrincipalPointY c;
        Camera.RadialDistortion1 c; Camera.RadialDistortion2 c]) /\
  (forall v,
     Camera.intrinsics (Camera.SetAspectRatio c v)
     = [Camera.FocalLength c; v; Camera.Skew c;
        Camera.PrincipalPointX c; Camera.PrincipalPointY c;
        Camera.RadialDistortion1 c; Camera.RadialDistortion2 c]) /\
  (forall v,
     Camera.intrinsics (Camera.SetSkew c v)
     = [Camera.FocalLength c; Camera.AspectRatio c; v;
        Camera.PrincipalPointX c; Camera.PrincipalPointY c;
        Camera.RadialDistortion1 c; Camera.RadialDistortion2 c]) /\
  (forall u v,
     Camera.intrinsics (Camera.SetPrincipalPoint c u v)
     = [Camera.FocalLength c; Camera.AspectRatio c; Camera.Skew c; u; v;
        Camera.RadialDistortion1 c; Camera.RadialDistortion2 c]) /\
  (forall u v,
     Camera.intrinsics (Camera.SetRadialDistortion c u v)
     = [Camera.FocalLength c; Camera.AspectRatio c; Camera.Skew c;
        Camera.PrincipalPointX c; Camera.PrincipalPointY c; u; v]).
Proof.
  intros [Hlen _]. destruct c as [cp se rot isz]. cbn in Hlen.
  do 8 (destruct cp as [|? cp]; try discriminate Hlen).
  repeat split.
Qed.

Lemma X5_intrinsics_layout_witness :
  Camera.wf Sample.camera /\
  Camera.intrinsics (Camera.SetSkew Sample.camera (Some 5%R))
  = [Some 1%R; Some 1%R; Some 5%R; Some 0%R; Some 0%R; Some 0%R; Some 0%R].
Proof.
  assert (Hwf : Camera.wf Sample.camera) by (split; reflexivity).
  split; [exact Hwf|].
  exact (proj1 (proj2 (proj2 (proj2 (X5_intrinsics_layout Sample.camera Hwf))))
           (Some 5%R)).
Defined.

(** X6.  [SetImageSize(w, h)] stores any two integers, positive or not:
    [ImageWidth()] and [ImageHeight()] return them, and the intrinsics,
    the pointer and the local offset are those of before. *)
Theorem X6_SetImageSize (c : Camera.t) (w ht : Z) :
  Camera.wf c ->
  Camera.ImageWidth (Camera.SetImageSize c w ht) = w /\
  Camera.ImageHeight (Camera.SetImageSize c w ht) = ht /\
  Camera.intrinsics (Camera.SetImageSize c w ht) = Camera.intrinsics c /\
  Camera.shared_extrinsics (Camera.SetImageSize c w ht)
  = Camera.shared_extrinsics c /\
  Camera.GetSharedToLocalTransform (Camera.SetImageSize c w ht)
  = Camera.GetSharedToLocalTransform c /\
  Camera.wf (Camera.SetImageSize c w ht).
Proof.
  intros [Hlen Hsz]. destruct c as [cp se rot isz]. cbn in Hlen, Hsz.
  do 3 (destruct isz as [|? isz]; try discriminate Hsz).
  repeat split. exact Hlen.
Qed.

Lemma X6_SetImageSize_witness :
  Camera.wf Sample.camera /\
  Camera.ImageWidth (Camera.SetImageSize Sample.camera (-1) 0) = (-1)%Z /\
  Camera.ImageHeight (Camera.SetImageSize Sample.camera (-1) 0) = 0%Z.
Proof.
  assert (Hwf : Camera.wf Sample.camera) by (split; reflexivity).
  split; [exact Hwf|].
  destruct (X6_SetImageSize Sample.camera (-1) 0 Hwf) as (Hw & Hh & _).
  split; [exact Hw|exact Hh].
Defined.

(** X7.  Every camera reached from a constructor through the public
    setters and raw intrinsics writes has an intrinsics array of 7 entries
    and an image size array of 2. *)
Theorem X7_reachable_wf (c : Camera.t) : reachable c -> Camera.wf c.
Proof.
  intros H. induction H as
    [d this s c [Hl Hs] Hc | c v _ IH | c v _ IH | c v _ IH | c u v _ IH
     | c u v _ IH | c w ht _ IH | c s _ IH | c m _ IH | c i v _ _ IH].
  - rewrite ctor_body in Hc.
    destruct (DCHECK d _); try discriminate Hc. cbn [bind] in Hc.
    apply Ret_inj in Hc. subst c. split; cbn;
      now rewrite !write_length.
  - destruct IH as [Hl Hs]. split; cbn; now rewrite ?write_length.
  - destruct IH as [Hl Hs]. split; cbn; now rewrite ?write_length.
  - destruct IH as [Hl Hs]. split; cbn; now rewrite ?write_length.
  - destruct IH as [Hl Hs]. split; cbn; now rewrite ?write_length.
  - destruct IH as [Hl Hs]. split; cbn; now rewrite ?write_length.
  - destruct IH as [Hl Hs]. split; cbn; now rewrite ?write_length.
  - exact IH.
  - exact IH.
  - destruct IH as [Hl Hs]. split; cbn; now rewrite ?write_length.
Qed.

Lemma X7_reachable_wf_witness :
  reachable Sample.flat_camera /\ Camera.wf Sample.flat_camera.
Proof.
  assert (Hr : reachable Sample.flat_camera)
    by (apply reach_SetFocalLength, sample_camera_reachable).
  split; [exact Hr|]. exact (X7_reachable_wf Sample.flat_camera Hr).
Defined.

(* ================================================================== *)
(** * Cameras of different rigs *)

Lemma observers_follow_extrinsics ext (c : Camera.t) (h h' : Heap) :
  Camera.extrinsics c h' = Camera.extrinsics c h ->
  Camera.GetPosition c h' = Camera.GetPosition c h /\
  Camera.GetOrientationAsRotationMatrix ext c h'
  = Camera.GetOrientationAsRotationMatrix ext c h /\
  Camera.GetOrientationAsAngleAxis ext c h'
  = Camera.GetOrientationAsAngleAxis ext c h /\
  (forall X, Camera.ProjectPoint ext c h' X = Camera.ProjectPoint ext c h X) /\
  (forall x, Camera.PixelToUnitDepthRay ext c h' x
             = Camera.PixelToUnitDepthRay ext c h x).
Proof.
  intros E.
  assert (HR : Camera.GetOrientationAsRotationMatrix ext c h'
               = Camera.GetOrientationAsRotationMatrix ext c h)
    by (unfold Camera.GetOrientationAsRotationMatrix; now rewrite E).
  split; [unfold Camera.GetPosition; now rewrite E|].
  split; [exact HR|].
  split; [unfold Camera.GetOrientationAsAngleAxis; now rewrite HR|].
  split.
  - intros X. unfold Camera.ProjectPoint. now rewrite E.
  - intros x. unfold Camera.PixelToUnitDepthRay. now rewrite HR.
Qed.

(** X8.  A write through one camera, by [SetPosition], by either
    orientation setter or through the raw accessor, changes nothing for a
    camera bound to another pointer: its block, position, rotation,
    projections and rays are what they were. *)
Theorem X8_other_rig_untouched
    (ext : Collaborators) (c other : Camera.t) (h h' : Heap)
    (position v : Vector3d) (R : Matrix3d) (f : list double -> list double) :
  Camera.shared_extrinsics other <> Camera.shared_extrinsics c ->
  Camera.SetPosition c h position = Ret h' \/
  Camera.SetOrientationFromRotationMatrix ext c h R = Ret h' \/
  Camera.SetOrientationFromAngleAxis ext c h v = Ret h' \/
  Camera.mutable_extrinsics_update c h f = Ret h' ->
  Camera.extrinsics other h' = Camera.extrinsics other h /\
  Camera.GetPosition other h' = Camera.GetPosition other h /\
  Camera.GetOrientationAsRotationMatrix ext other h'
  = Camera.GetOrientationAsRotationMatrix ext other h /\
  (forall X, Camera.ProjectPoint ext other h' X
             = Camera.ProjectPoint ext other h X) /\
  (forall x, Camera.PixelToUnitDepthRay ext other h' x
             = Camera.PixelToUnitDepthRay ext other h x).
Proof.
  intros Hne Hw.
  assert (E : Camera.extrinsics other h' = Camera.extrinsics other h).
  { destruct Hw as [H|[H|[H|H]]];
      exact (proj2 (update_extrinsics c other h h' _ H) Hne). }
  destruct (observers_follow_extrinsics ext other h h' E)
    as (H1 & H2 & _ & H4 & H5).
  repeat split; assumption.
Qed.

Lemma X8_other_rig_untouched_witness :
  Camera.shared_extrinsics Rig.other_camera
  <> Camera.shared_extrinsics Sample.camera /\
  exists h',
    Camera.SetPosition Sample.camera Rig.heap (vec3 1 2 3) = Ret h' /\
    Camera.GetPosition Sample.camera h' = Ret (vec3 1 2 3) /\
    Camera.GetPosition Rig.other_camera h'
    = Camera.GetPosition Rig.other_camera Rig.heap.
Proof.
  assert (Hne : Camera.shared_extrinsics Rig.other_camera
                <> Camera.shared_extrinsics Sample.camera) by discriminate.
  split; [exact Hne|].
  eexists. split; [reflexivity|]. split; [reflexivity|].
  refine (proj1 (proj2 (X8_other_rig_untouched Sample.collaborators
            Sample.camera Rig.other_camera Rig.heap _ (vec3 1 2 3)
            (vec3 0 0 0) Eigen.Identity (fun a => a) Hne
            (or_introl eq_refl)))).
Defined.

Lemma ctor_block_wf : SharedExtrinsics.wf SharedExtrinsics.ctor.
Proof. reflexivity. Qed.

(** X9.  Two cameras built by [Camera()] one after the other are bound
    to different live blocks: setting the position of the first is read
    back by it and leaves position and rotation of the second alone. *)
Theorem X9_default_cameras_independent
    (ext : Collaborators) (d : bool) (this1 this2 : Camera.t) (h : Heap) :
  exists c1 c2 h1 h2,
    Camera.default_ctor d this1 h = Ret (c1, h1) /\
    Camera.default_ctor d this2 h1 = Ret (c2, h2) /\
    Camera.shared_extrinsics c1 <> Camera.shared_extrinsics c2 /\
    valid h2 (Camera.shared_extrinsics c1) /\
    valid h2 (Camera.shared_extrinsics c2) /\
    forall position,
      exists h3,
        Camera.SetPosition c1 h2 position = Ret h3 /\
        Camera.GetPosition c1 h3 = Ret position /\
        Camera.GetPosition c2 h3 = Camera.GetPosition c2 h2 /\
        Camera.GetOrientationAsRotationMatrix ext c2 h3
        = Camera.GetOrientationAsRotationMatrix ext c2 h2.
Proof.
  do 4 eexists.
  split; [unfold Camera.default_ctor, make_shared;
          rewrite ctor_returns; reflexivity|].
  split; [unfold Camera.default_ctor, make_shared;
          rewrite ctor_returns; reflexivity|].
  cbn [Camera.shared_extrinsics].
  assert (Hne : Some (length h) <> Some (length (h ++ [SharedExtrinsics.ctor]))).
  { rewrite length_app. cbn. intros E. injection E as E. lia. }
  assert (Hv1 : valid ((h ++ [SharedExtrinsics.ctor]) ++ [SharedExtrinsics.ctor])
                      (Some (length h))).
  { exists (length h), SharedExtrinsics.ctor. split; [reflexivity|].
    split; [|exact ctor_block_wf].
    rewrite <- app_assoc. rewrite nth_error_app2 by lia.
    now rewrite Nat.sub_diag. }
  assert (Hv2 : valid ((h ++ [SharedExtrinsics.ctor]) ++ [SharedExtrinsics.ctor])
                      (Some (length (h ++ [SharedExtrinsics.ctor])))).
  { exists (length (h ++ [SharedExtrinsics.ctor])), SharedExtrinsics.ctor.
    split; [reflexivity|]. split; [|exact ctor_block_wf].
    rewrite nth_error_app2 by lia. now rewrite Nat.sub_diag. }
  split; [exact Hne|]. split; [exact Hv1|]. split; [exact Hv2|].
  intros position.
  destruct Hv1 as (l & s & Hp & Hl & Hs). injection Hp as <-.
  set (c1 := Camera.Build _ (Some (length h)) _ _).
  set (c2 := Camera.Build _ (Some (length (h ++ [SharedExtrinsics.ctor]))) _ _).
  set (h2 := (h ++ [SharedExtrinsics.ctor]) ++ [SharedExtrinsics.ctor]) in *.
  destruct (extrinsics_after_update c1 c1 h2
              (fun a => write3 a SharedExtrinsics.POSITION position)
              (length h) s eq_refl eq_refl Hl) as (h3 & Hset & Hget & _).
  exists h3. split; [exact Hset|].
  split.
  - unfold Camera.GetPosition. rewrite Hget. cbn [bind].
    unfold SharedExtrinsics.extrinsics. cbn [SharedExtrinsics.parameters].
    rewrite read3_write3_same; [reflexivity|]. rewrite Hs.
    unfold SharedExtrinsics.POSITION, SharedExtrinsics.kExtrinsicsSize. lia.
  - assert (E : Camera.extrinsics c2 h3 = Camera.extrinsics c2 h2).
    { apply (proj2 (update_extrinsics c1 c2 h2 h3 _ Hset)).
      cbn. intros E. apply Hne. now symmetry. }
    destruct (observers_follow_extrinsics ext c2 h2 h3 E) as (H1 & H2 & _).
    split; assumption.
Qed.

(* ================================================================== *)
(** * What the writers keep *)

Lemma valid_store (h : Heap) l s s' p :
  nth_error h l = Some s -> SharedExtrinsics.wf s' ->
  valid h p -> valid (store h l s') p.
Proof.
  intros Hl Hs' (l' & s0 & -> & Hl' & Hs0).
  destruct (Nat.eq_dec l l') as [<-|Hne].
  - exists l, s'. split; [reflexivity|]. split; [|exact Hs'].
    eapply valid_after_update; eassumption.
  - exists l', s0. split; [reflexivity|]. split; [|exact Hs0].
    unfold store. now rewrite nth_error_write_other.
Qed.

Lemma write3_wf s off v :
  SharedExtrinsics.wf s ->
  SharedExtrinsics.wf (SharedExtrinsics.Build
                         (write3 (SharedExtrinsics.parameters s) off v)).
Proof.
  unfold SharedExtrinsics.wf. cbn. now rewrite write3_length.
Qed.

(** X10.  [SetPosition], both orientation setters and
    [InitializeFromProjectionMatrix] keep the heap's size and every
    binding: a pointer that addressed a block of 6 doubles before the call
    does so after it. *)
Theorem X10_writers_keep_bindings
    (ext : Collaborators) (d : bool) (c c' : Camera.t) (h h' : Heap)
    (position v : Vector3d) (R : Matrix3d)
    (w ht : Z) (P : Matrix3x4d) (b : bool) :
  valid h (Camera.shared_extrinsics c) ->
  Camera.SetPosition c h position = Ret h' \/
  Camera.SetOrientationFromRotationMatrix ext c h R = Ret h' \/
  Camera.SetOrientationFromAngleAxis ext c h v = Ret h' \/
  Camera.InitializeFromProjectionMatrix ext d c h w ht P = Ret (b, c', h') ->
  length h' = length h /\
  forall p, valid h p -> valid h' p.
Proof.
  intros (l & s & Hp & Hl & Hs) Hw.
  assert (Hgen : forall off u,
    length (store h l (SharedExtrinsics.Build
              (write3 (SharedExtrinsics.parameters s) off u))) = length h /\
    forall p, valid h p ->
      valid (store h l (SharedExtrinsics.Build
               (write3 (SharedExtrinsics.parameters s) off u))) p).
  { intros off u. split; [unfold store; apply write_length|].
    intros p Hv. eapply valid_store; [exact Hl| |exact Hv].
    now apply write3_wf. }
  destruct Hw as [H|[H|[H|H]]].
  - unfold Camera.SetPosition in H.
    rewrite (update_returns c h _ l s Hp Hl) in H. apply Ret_inj in H.
    subst h'. apply Hgen.
  - unfold Camera.SetOrientationFromRotationMatrix in H.
    rewrite (update_returns c h _ l s Hp Hl) in H. apply Ret_inj in H.
    subst h'. apply Hgen.
  - unfold Camera.SetOrientationFromAngleAxis in H.
    rewrite (update_returns c h _ l s Hp Hl) in H. apply Ret_inj in H.
    subst h'. apply Hgen.
  - destruct (Initialize_inv _ _ _ _ _ _ _ _ _ _ H)
      as (K & Rwc & pos & l' & s' & _ & Hp' & Hl' & -> & _).
    assert (l' = l) as -> by congruence.
    assert (s' = s) as -> by congruence.
    split; [unfold store; apply write_length|].
    intros p Hv. eapply valid_store; [exact Hl| |exact Hv].
    apply (write3_wf (SharedExtrinsics.Build _)). now apply write3_wf.
Qed.

Lemma X10_writers_keep_bindings_witness :
  valid Sample.heap (Camera.shared_extrinsics Sample.camera) /\
  exists h',
    Camera.SetPosition Sample.camera Sample.heap (vec3 1 2 3) = Ret h' /\
    length h' = length Sample.heap /\
    valid h' (Camera.shared_extrinsics Sample.camera2).
Proof.
  assert (Hv : valid Sample.heap (Camera.shared_extrinsics Sample.camera))
    by (apply sample_heap_valid; reflexivity).
  split; [exact Hv|].
  eexists. split; [reflexivity|].
  destruct (X10_writers_keep_bindings Sample.collaborators true Sample.camera
              Sample.camera Sample.heap _ (vec3 1 2 3) (vec3 0 0 0)
              Eigen.Identity 0 0 Sample.projection_matrix true Hv
              (or_introl eq_refl)) as (Hlen & Hkeep).
  split; [exact Hlen|]. apply Hkeep. exact Hv.
Defined.

(** X11.  On a camera bound to a live block, the last of two
    [SetPosition] calls wins, and so does the last of two
    [SetOrientationFromRotationMatrix] calls; [SetPosition] and
    [SetOrientationFromRotationMatrix] commute: either order leaves the
    same heap. *)
Theorem X11_setters_commute_last_wins
    (ext : Collaborators) (c : Camera.t) (h : Heap)
    (p1 p2 : Vector3d) (R1 R2 : Matrix3d) :
  valid h (Camera.shared_extrinsics c) ->
  (h1 <- Camera.SetPosition c h p1 ;; Camera.SetPosition c h1 p2)
  = Camera.SetPosition c h p2 /\
  (h1 <- Camera.SetOrientationFromRotationMatrix ext c h R1 ;;
   Camera.SetOrientationFromRotationMatrix ext c h1 R2)
  = Camera.SetOrientationFromRotationMatrix ext c h R2 /\
  (h1 <- Camera.SetPosition c h p1 ;;
   Camera.SetOrientationFromRotationMatrix ext c h1 R1)
  = (h1 <- Camera.SetOrientationFromRotationMatrix ext c h R1 ;;
     Camera.SetPosition c h1 p1).
Proof.
  intros (l & s & Hp & Hl & Hs).
  assert (Hstep : forall f g,
    (h1 <- Camera.mutable_extrinsics_update c h f ;;
     Camera.mutable_extrinsics_update c h1 g)
    = Ret (store h l (SharedExtrinsics.Build
             (g (f (SharedExtrinsics.parameters s)))))).
  { intros f g. rewrite (update_returns c h f l s Hp Hl). cbn [bind].
    rewrite (update_returns c _ g l _ Hp (valid_after_update h l s _ Hl)).
    now rewrite store_store. }
  unfold Camera.SetPosition, Camera.SetOrientationFromRotationMatrix.
  rewrite !Hstep, !(update_returns c h _ l s Hp Hl).
  rewrite !write3_write3_same, write3_write3_comm. repeat split.
Qed.

Lemma X11_setters_commute_last_wins_witness :
  valid Sample.heap (Camera.shared_extrinsics Sample.camera2) /\
  (h1 <- Camera.SetPosition Sample.camera2 Sample.heap (vec3 1 2 3) ;;
   Camera.SetOrientationFromRotationMatrix Sample.collaborators Sample.camera2
     h1 Sample.quarter_turn)
  = (h1 <- Camera.SetOrientationFromRotationMatrix Sample.collaborators
             Sample.camera2 Sample.heap Sample.quarter_turn ;;
     Camera.SetPosition Sample.camera2 h1 (vec3 1 2 3)).
Proof.
  assert (Hv : valid Sample.heap (Camera.shared_extrinsics Sample.camera2))
    by (apply sample_heap_valid; reflexivity).
  split; [exact Hv|].
  exact (proj2 (proj2 (X11_setters_commute_last_wins Sample.collaborators
           Sample.camera2 Sample.heap (vec3 1 2 3) (vec3 0 0 0)
           Sample.quarter_turn Eigen.Identity Hv))).
Defined.

(* ================================================================== *)
(** * A camera bound to the null pointer *)

(** X12.  With debug checks compiled out the constructor accepts the
    null pointer; every member function of the camera it returns that
    reads or writes extrinsics dereferences null, whatever the heap, and
    after [SetSharedExtrinsics] with a pointer to a live block
    [GetPosition()] returns. *)
Theorem X12_null_bound_camera
    (ext : Collaborators) (this : Camera.t) :
  exists c,
    Camera.ctor false this None = Ret c /\
    (forall h position R v X x w ht P,
       Camera.GetPosition c h = NullDereference /\
       Camera.SetPosition c h position = NullDereference /\
       Camera.GetOrientationAsRotationMatrix ext c h = NullDereference /\
       Camera.GetOrientationAsAngleAxis ext c h = NullDereference /\
       Camera.SetOrientationFromRotationMatrix ext c h R = NullDereference /\
       Camera.SetOrientationFromAngleAxis ext c h v = NullDereference /\
       Camera.ProjectPoint ext c h X = NullDereference /\
       Camera.PixelToUnitDepthRay ext c h x = NullDereference /\
       Camera.InitializeFromProjectionMatrix ext false c h w ht P
       = NullDereference) /\
    (forall h s, valid h s ->
       exists position,
         Camera.GetPosition (Camera.SetSharedExtrinsics c s) h = Ret position).
Proof.
  eexists. split; [reflexivity|]. split.
  - intros h position R v X x w ht P. repeat split.
    rewrite InitializeFromProjectionMatrix_body. cbn.
    destruct (DecomposeProjectionMatrix ext P) as [[K Rwc] pos]. reflexivity.
  - intros h s (l & s0 & -> & Hl & _). eexists.
    unfold Camera.GetPosition, Camera.extrinsics, deref. cbn.
    rewrite Hl. reflexivity.
Qed.

Lemma X12_null_bound_camera_witness :
  valid Sample.heap (Some 0%nat) /\
  exists c,
    Camera.ctor false Sample.storage None = Ret c /\
    Camera.GetPosition c Sample.heap = NullDereference /\
    exists position,
      Camera.GetPosition (Camera.SetSharedExtrinsics c (Some 0%nat))
        Sample.heap = Ret position.
Proof.
  assert (Hv : valid Sample.heap (Some 0%nat)).
  { exists 0%nat, SharedExtrinsics.ctor. repeat split. }
  split; [exact Hv|].
  destruct (X12_null_bound_camera Sample.collaborators Sample.storage)
    as (c & Hc & Hnull & Hrebind).
  exists c. split; [exact Hc|]. split.
  - exact (proj1 (Hnull Sample.heap (vec3 0 0 0) Eigen.Identity (vec3 0 0 0)
                    Sample.point Sample.pixel 0%Z 0%Z Sample.projection_matrix)).
  - exact (Hrebind Sample.heap (Some 0%nat) Hv).
Defined.

(* ================================================================== *)
(** * Orthogonal matrices *)

Section OrthogonalMatrices.
Local Open Scope R_scope.

Lemma orthogonal_det (r00 r01 r02 r10 r11 r12 r20 r21 r22 : R) :
  Eigen.mmul (Eigen.transpose (mat r00 r01 r02 r10 r11 r12 r20 r21 r22))
             (mat r00 r01 r02 r10 r11 r12 r20 r21 r22) = Eigen.Identity ->
  let det := (r11 * r22 - r12 * r21) * r00 + (r21 * r02 - r22 * r01) * r10
             + (r01 * r12 - r02 * r11) * r20 in
  det * det = 1.
Proof.
  intros HO det.
  destruct (orthogonal_columns _ _ _ _ _ _ _ _ _ HO)
    as ((A0 & A1 & A2) & (B0 & B1 & B2) & (C0 & C1 & C2)).
  transitivity
    ((r00 * r00 + r10 * r10 + r20 * r20)
       * ((r01 * r01 + r11 * r11 + r21 * r21) * (r02 * r02 + r12 * r12 + r22 * r22)
          - (r01 * r02 + r11 * r12 + r21 * r22) * (r02 * r01 + r12 * r11 + r22 * r21))
     - (r00 * r01 + r10 * r11 + r20 * r21)
       * ((r01 * r00 + r11 * r10 + r21 * r20) * (r02 * r02 + r12 * r12 + r22 * r22)
          - (r01 * r02 + r11 * r12 + r21 * r22) * (r02 * r00 + r12 * r10 + r22 * r20))
     + (r00 * r02 + r10 * r12 + r20 * r22)
       * ((r01 * r00 + r11 * r10 + r21 * r20) * (r02 * r01 + r12 * r11 + r22 * r21)
          - (r01 * r01 + r11 * r11 + r21 * r21) * (r02 * r00 + r12 * r10 + r22 * r20))).
  - unfold det. ring.
  - rewrite A0, A1, A2, B0, B1, B2, C0, C1, C2. ring.
Qed.

Lemma orthogonal_inverse_transpose (r00 r01 r02 r10 r11 r12 r20 r21 r22 : R) :
  Eigen.mmul (Eigen.transpose (mat r00 r01 r02 r10 r11 r12 r20 r21 r22))
             (mat r00 r01 r02 r10 r11 r12 r20 r21 r22) = Eigen.Identity ->
  Eigen.inverse (mat r00 r01 r02 r10 r11 r12 r20 r21 r22)
  = Eigen.transpose (mat r00 r01 r02 r10 r11 r12 r20 r21 r22).
Proof.
  intros HO.
  pose proof (orthogonal_det _ _ _ _ _ _ _ _ _ HO) as Hsq. cbv zeta in Hsq.
  destruct (orthogonal_columns _ _ _ _ _ _ _ _ _ HO)
    as ((A0 & A1 & A2) & (B0 & B1 & B2) & (C0 & C1 & C2)).
  assert (Hdet : ((r11 * r22 - r12 * r21) * r00 + (r21 * r02 - r22 * r01) * r10 + (r01 * r12 - r02 * r11) * r20) <> 0) by (intros E; rewrite E in Hsq; lra).
  unfold Eigen.inverse, Eigen.determinant, Eigen.transpose, mat. simpl.
  destruct (Req_dec_T ((r11 * r22 - r12 * r21) * r00 + (r21 * r02 - r22 * r01) * r10 + (r01 * r12 - r02 * r11) * r20) 0) as [E|_]; [contradiction|].
  simpl. f_equal; apply f_equal.
  - transitivity ((r00 * r00 + r10 * r10 + r20 * r20) * ((r11 * r22 - r12 * r21) * (1 / ((r11 * r22 - r12 * r21) * r00 + (r21 * r02 - r22 * r01) * r10 + (r01 * r12 - r02 * r11) * r20))) + (r00 * r01 + r10 * r11 + r20 * r21) * ((r12 * r20 - r10 * r22) * (1 / ((r11 * r22 - r12 * r21) * r00 + (r21 * r02 - r22 * r01) * r10 + (r01 * r12 - r02 * r11) * r20))) + (r00 * r02 + r10 * r12 + r20 * r22) * ((r10 * r21 - r11 * r20) * (1 / ((r11 * r22 - r12 * r21) * r00 + (r21 * r02 - r22 * r01) * r10 + (r01 * r12 - r02 * r11) * r20)))).
    + rewrite ?A0, ?A1, ?A2, ?B0, ?B1, ?B2, ?C0, ?C1, ?C2. field. exact Hdet.
    + field. exact Hdet.
  - transitivity ((r00 * r00 + r10 * r10 + r20 * r20) * ((r21 * r02 - r22 * r01) * (1 / ((r11 * r22 - r12 * r21) * r00 + (r21 * r02 - r22 * r01) * r10 + (r01 * r12 - r02 * r11) * r20))) + (r00 * r01 + r10 * r11 + r20 * r21) * ((r22 * r00 - r20 * r02) * (1 / ((r11 * r22 - r12 * r21) * r00 + (r21 * r02 - r22 * r01) * r10 + (r01 * r12 - r02 * r11) * r20))) + (r00 * r02 + r10 * r12 + r20 * r22) * ((r20 * r01 - r21 * r00) * (1 / ((r11 * r22 - r12 * r21) * r00 + (r21 * r02 - r22 * r01) * r10 + (r01 * r12 - r02 * r11) * r20)))).
    + rewrite ?A0, ?A1, ?A2, ?B0, ?B1, ?B2, ?C0, ?C1, ?C2. field. exact Hdet.
    + field. exact Hdet.
  - transitivity ((r00 * r00 + r10 * r10 + r20 * r20) * ((r01 * r12 - r02 * r11) * (1 / ((r11 * r22 - r12 * r21) * r00 + (r21 * r02 - r22 * r01) * r10 + (r01 * r12 - r02 * r11) * r20))) + (r00 * r01 + r10 * r11 + r20 * r21) * ((r02 * r10 - r00 * r12) * (1 / ((r11 * r22 - r12 * r21) * r00 + (r21 * r02 - r22 * r01) * r10 + (r01 * r12 - r02 * r11) * r20))) + (r00 * r02 + r10 * r12 + r20 * r22) * ((r00 * r11 - r01 * r10) * (1 / ((r11 * r22 - r12 * r21) * r00 + (r21 * r02 - r22 * r01) * r10 + (r01 * r12 - r02 * r11) * r20)))).
    + rewrite ?A0, ?A1, ?A2, ?B0, ?B1, ?B2, ?C0, ?C1, ?C2. field. exact Hdet.
    + field. exact Hdet.
  - transitivity ((r01 * r00 + r11 * r10 + r21 * r20) * ((r11 * r22 - r12 * r21) * (1 / ((r11 * r22 - r12 * r21) * r00 + (r21 * r02 - r22 * r01) * r10 + (r01 * r12 - r02 * r11) * r20))) + (r01 * r01 + r11 * r11 + r21 * r21) * ((r12 * r20 - r10 * r22) * (1 / ((r11 * r22 - r12 * r21) * r00 + (r21 * r02 - r22 * r01) * r10 + (r01 * r12 - r02 * r11) * r20))) + (r01 * r02 + r11 * r12 + r21 * r22) * ((r10 * r21 - r11 * r20) * (1 / ((r11 * r22 - r12 * r21) * r00 + (r21 * r02 - r22 * r01) * r10 + (r01 * r12 - r02 * r11) * r20)))).
    + rewrite ?A0, ?A1, ?A2, ?B0, ?B1, ?B2, ?C0, ?C1, ?C2. field. exact Hdet.
    + field. exact Hdet.
  - transitivity ((r01 * r00 + r11 * r10 + r21 * r20) * ((r21 * r02 - r22 * r01) * (1 / ((r11 * r22 - r12 * r21) * r00 + (r21 * r02 - r22 * r01) * r10 + (r01 * r12 - r02 * r11) * r20))) + (r01 * r01 + r11 * r11 + r21 * r21) * ((r22 * r00 - r20 * r02) * (1 / ((r11 * r22 - r12 * r21) * r00 + (r21 * r02 - r22 * r01) * r10 + (r01 * r12 - r02 * r11) * r20))) + (r01 * r02 + r11 * r12 + r21 * r22) * ((r20 * r01 - r21 * r00) * (1 / ((r11 * r22 - r12 * r21) * r00 + (r21 * r02 - r22 * r01) * r10 + (r01 * r12 - r02 * r11) * r20)))).
    + rewrite ?A0, ?A1, ?A2, ?B0, ?B1, ?B2, ?C0, ?C1, ?C2. field. exact Hdet.
    + field. exact Hdet.
  - transitivity ((r01 * r00 + r11 * r10 + r21 * r20) * ((r01 * r12 - r02 * r11) * (1 / ((r11 * r22 - r12 * r21) * r00 + (r21 * r02 - r22 * r01) * r10 + (r01 * r12 - r02 * r11) * r20))) + (r01 * r01 + r11 * r11 + r21 * r21) * ((r02 * r10 - r00 * r12) * (1 / ((r11 * r22 - r12 * r21) * r00 + (r21 * r02 - r22 * r01) * r10 + (r01 * r12 - r02 * r11) * r20))) + (r01 * r02 + r11 * r12 + r21 * r22) * ((r00 * r11 - r01 * r10) * (1 / ((r11 * r22 - r12 * r21) * r00 + (r21 * r02 - r22 * r01) * r10 + (r01 * r12 - r02 * r11) * r20)))).
    + rewrite ?A0, ?A1, ?A2, ?B0, ?B1, ?B2, ?C0, ?C1, ?C2. field. exact Hdet.
    + field. exact Hdet.
  - transitivity ((r02 * r00 + r12 * r10 + r22 * r20) * ((r11 * r22 - r12 * r21) * (1 / ((r11 * r22 - r12 * r21) * r00 + (r21 * r02 - r22 * r01) * r10 + (r01 * r12 - r02 * r11) * r20))) + (r02 * r01 + r12 * r11 + r22 * r21) * ((r12 * r20 - r10 * r22) * (1 / ((r11 * r22 - r12 * r21) * r00 + (r21 * r02 - r22 * r01) * r10 + (r01 * r12 - r02 * r11) * r20))) + (r02 * r02 + r12 * r12 + r22 * r22) * ((r10 * r21 - r11 * r20) * (1 / ((r11 * r22 - r12 * r21) * r00 + (r21 * r02 - r22 * r01) * r10 + (r01 * r12 - r02 * r11) * r20)))).
    + rewrite ?A0, ?A1, ?A2, ?B0, ?B1, ?B2, ?C0, ?C1, ?C2. field. exact Hdet.
    + field. exact Hdet.
  - transitivity ((r02 * r00 + r12 * r10 + r22 * r20) * ((r21 * r02 - r22 * r01) * (1 / ((r11 * r22 - r12 * r21) * r00 + (r21 * r02 - r22 * r01) * r10 + (r01 * r12 - r02 * r11) * r20))) + (r02 * r01 + r12 * r11 + r22 * r21) * ((r22 * r00 - r20 * r02) * (1 / ((r11 * r22 - r12 * r21) * r00 + (r21 * r02 - r22 * r01) * r10 + (r01 * r12 - r02 * r11) * r20))) + (r02 * r02 + r12 * r12 + r22 * r22) * ((r20 * r01 - r21 * r00) * (1 / ((r11 * r22 - r12 * r21) * r00 + (r21 * r02 - r22 * r01) * r10 + (r01 * r12 - r02 * r11) * r20)))).
    + rewrite ?A0, ?A1, ?A2, ?B0, ?B1, ?B2, ?C0, ?C1, ?C2. field. exact Hdet.
    + field. exact Hdet.
  - transitivity ((r02 * r00 + r12 * r10 + r22 * r20) * ((r01 * r12 - r02 * r11) * (1 / ((r11 * r22 - r12 * r21) * r00 + (r21 * r02 - r22 * r01) * r10 + (r01 * r12 - r02 * r11) * r20))) + (r02 * r01 + r12 * r11 + r22 * r21) * ((r02 * r10 - r00 * r12) * (1 / ((r11 * r22 - r12 * r21) * r00 + (r21 * r02 - r22 * r01) * r10 + (r01 * r12 - r02 * r11) * r20))) + (r02 * r02 + r12 * r12 + r22 * r22) * ((r00 * r11 - r01 * r10) * (1 / ((r11 * r22 - r12 * r21) * r00 + (r21 * r02 - r22 * r01) * r10 + (r01 * r12 - r02 * r11) * r20)))).
    + rewrite ?A0, ?A1, ?A2, ?B0, ?B1, ?B2, ?C0, ?C1, ?C2. field. exact Hdet.
    + field. exact Hdet.
Qed.

Lemma orthogonal_rows (m : Matrix3d) :
  Eigen.mmul (Eigen.transpose m) m = Eigen.Identity ->
  Eigen.mmul m (Eigen.transpose m) = Eigen.Identity.
Proof.
  intros HO.
  destruct (orthogonal_finite _ HO)
    as (r00 & r01 & r02 & r10 & r11 & r12 & r20 & r21 & r22 & ->).
  rewrite <- (orthogonal_inverse_transpose _ _ _ _ _ _ _ _ _ HO).
  pose proof (orthogonal_det _ _ _ _ _ _ _ _ _ HO) as Hsq. cbv zeta in Hsq.
  unfold Eigen.inverse, Eigen.determinant, Eigen.mmul, Eigen.Identity, mat.
  simpl.
  match goal with
  | |- context [Req_dec_T ?x 0] => destruct (Req_dec_T x 0) as [E|E]
  end.
  - exfalso. rewrite E in Hsq. lra.
  - simpl. f_equal; apply f_equal; field; exact E.
Qed.



End OrthogonalMatrices.

(* ================================================================== *)
(** * Calibration and projection matrices *)



Lemma identity_rotation : is_rotation Eigen.Identity.
Proof.
  split.
  - unfold Eigen.mmul, Eigen.transpose, Eigen.Identity. simpl.
    f_equal; apply f_equal; lra.
  - unfold Eigen.determinant, Eigen.Identity. simpl. apply f_equal. lra.
Qed.


(* ================================================================== *)
(** * The persisted form loses nothing *)

Lemma map_f64_inj (l1 l2 : list double) : map f64 l1 = map f64 l2 -> l1 = l2.
Proof.
  revert l2. induction l1 as [|x t IH]; intros [|y u] H; try discriminate H.
  - reflexivity.
  - cbn in H. injection H as -> H. f_equal. now apply IH.
Qed.

(** X17.  Two cameras with arrays of the declared sizes that hand a binary
    archive the same values have the same intrinsics block, the same
    pointer, the same local offset and the same image size; two
    [SharedExtrinsics] that do hold the same block.  A camera hands over
    19 values: 7 doubles, the pointer, 9 doubles and 2 ints. *)
Theorem X17_persisted_form_lossless :
  (forall c1 c2,
     Camera.wf c1 -> Camera.wf c2 ->
     persisted (Camera_serialize c1) = persisted (Camera_serialize c2) ->
     c1 = c2) /\
  (forall s1 s2,
     persisted (SharedExtrinsics_serialize s1)
     = persisted (SharedExtrinsics_serialize s2) ->
     s1 = s2) /\
  (forall c, Camera.wf c -> length (persisted (Camera_serialize c)) = 19%nat).
Proof.
  split; [|split].
  - intros [cp1 p1 [a1 b1 c1 d1 e1 f1 g1 h1 i1] sz1]
           [cp2 p2 [a2 b2 c2 d2 e2 f2 g2 h2 i2] sz2] [L1 Z1] [L2 Z2] H.
    cbn in L1, Z1, L2, Z2.
    do 8 (destruct cp1 as [|? cp1]; try discriminate L1).
    do 8 (destruct cp2 as [|? cp2]; try discriminate L2).
    do 3 (destruct sz1 as [|? sz1]; try discriminate Z1).
    do 3 (destruct sz2 as [|? sz2]; try discriminate Z2).
    cbn in H. injection H. intros. subst. reflexivity.
  - intros [p1] [p2] H. unfold persisted, SharedExtrinsics_serialize in H.
    cbn in H. apply app_inj_tail in H. destruct H as [H _].
    f_equal. now apply map_f64_inj.
  - intros [cp p [a b c d e f g h i] sz] [L Z]. cbn in L, Z.
    do 8 (destruct cp as [|? cp]; try discriminate L).
    do 3 (destruct sz as [|? sz]; try discriminate Z).
    reflexivity.
Qed.

Lemma X17_persisted_form_lossless_witness :
  Camera.wf Sample.camera /\
  length (persisted (Camera_serialize Sample.camera)) = 19%nat.
Proof.
  assert (H1 : Camera.wf Sample.camera) by (split; reflexivity).
  split; [exact H1|].
  exact (proj2 (proj2 X17_persisted_form_lossless) Sample.camera H1).
Defined.
